(** * web-file-downloader: a shallow embedding of [src/main.py]

    The development follows the script function by function:
    [load_download_history], [save_download_history], [get_page_content],
    [find_download_links], [download_file], [organize_file] and the body of
    [main] from the point where the configuration dictionary is loaded.

    Modelling choices:
    - Python strings are ASCII strings; [lower] and [capitalize] act on
      the letters A-Z and a-z.
    - The in-memory history is a finite set of hashable Python values.
    - The download tree is a finite map from the paths of regular files
      to their contents.  Directories are not tracked: [path_exists]
      answers for regular files, so the development covers the runs in
      which no directory sits at a path the script uses as a file name.
      Whether [os.makedirs] and [shutil.move] succeed, and what a move
      that raises leaves at its destination, is decided by the world.
    - The history file is kept apart from the download tree and is
      classified by what [open] and [json.load] make of its content.
    - Library code ([requests], [BeautifulSoup], [urllib.parse], the
      clock) is a record of oracles, [world]; theorems quantify over it.
    - [print] calls and network requests are recorded as a trace of
      events; exceptions that no [except] clause catches end the run.
    - The one unbounded loop, in [organize_file], runs on a budget of
      iterations that is proved sufficient. *)

From Stdlib Require Import Ascii String.
From stdpp Require Import gmap strings list fin_maps pretty.

Local Open Scope string_scope.
Local Open Scope list_scope.

(** ** Python string primitives *)

Module PyStr.

Definition is_upper (c : ascii) : bool :=
  let n := nat_of_ascii c in Nat.leb 65 n && Nat.leb n 90.

Definition is_lower (c : ascii) : bool :=
  let n := nat_of_ascii c in Nat.leb 97 n && Nat.leb n 122.

Definition lower_ascii (c : ascii) : ascii :=
  if is_upper c then ascii_of_nat (nat_of_ascii c + 32)%nat else c.

Definition upper_ascii (c : ascii) : ascii :=
  if is_lower c then ascii_of_nat (nat_of_ascii c - 32)%nat else c.

(** [s.lower()] *)
Fixpoint lower (s : string) : string :=
  match s with
  | EmptyString => EmptyString
  | String c r => String (lower_ascii c) (lower r)
  end.

(** [s.capitalize()]: first character upper-cased, the rest lower-cased. *)
Definition capitalize (s : string) : string :=
  match s with
  | EmptyString => EmptyString
  | String c r => String (upper_ascii c) (lower r)
  end.

(** [s.endswith(suf)] *)
Fixpoint endswith (s suf : string) : bool :=
  bool_decide (s = suf) ||
  match s with
  | EmptyString => false
  | String _ r => endswith r suf
  end.

(** [s.startswith(c)] for a one-character [c]. *)
Definition startswith_char (s : string) (c : ascii) : bool :=
  match s with
  | EmptyString => false
  | String d _ => bool_decide (d = c)
  end.

(** [s.replace(c, '')] for a one-character [c]. *)
Fixpoint remove_char (c : ascii) (s : string) : string :=
  match s with
  | EmptyString => EmptyString
  | String d r =>
      if bool_decide (d = c) then remove_char c r
      else String d (remove_char c r)
  end.

(** The two halves of [s] around the last occurrence of [sep]. *)
Fixpoint split_last (sep : ascii) (s : string) : option (string * string) :=
  match s with
  | EmptyString => None
  | String c r =>
      match split_last sep r with
      | Some (a, b) => Some (String c a, b)
      | None => if bool_decide (c = sep) then Some (EmptyString, r) else None
      end
  end.

Fixpoint all_char (c : ascii) (s : string) : bool :=
  match s with
  | EmptyString => true
  | String d r => bool_decide (d = c) && all_char c r
  end.

(** Whether [s] has an upper-case letter. *)
Fixpoint existsb_char_upper (s : string) : bool :=
  match s with
  | EmptyString => false
  | String c r => is_upper c || existsb_char_upper r
  end.

(** The one-character strings of [s], as [set(s)] / [for ch in s] sees
    them. *)
Fixpoint chars (s : string) : list string :=
  match s with
  | EmptyString => []
  | String c r => String c EmptyString :: chars r
  end.

End PyStr.

(** ** [os.path] (POSIX flavour) *)

Module OsPath.
Import PyStr.

(** [os.path.basename(p)]: what follows the last slash. *)
Definition basename (p : string) : string :=
  match split_last "/"%char p with
  | Some (_, b) => b
  | None => p
  end.

(** [os.path.splitext(p)]: split at the last dot of the last component,
    unless that component has only dots before it. *)
Definition splitext (p : string) : string * string :=
  let '(head, name) :=
    match split_last "/"%char p with
    | Some (d, n) => (d +:+ "/", n)
    | None => (EmptyString, p)
    end in
  match split_last "."%char name with
  | Some (stem, e) =>
      if all_char "."%char stem then (p, EmptyString)
      else (head +:+ stem, "." +:+ e)
  | None => (p, EmptyString)
  end.

(** [os.path.join(a, b)] *)
Definition join (a b : string) : string :=
  if startswith_char b "/"%char then b
  else if bool_decide (a = "") || endswith a "/" then a +:+ b
  else a +:+ "/" +:+ b.

(** [os.path.join(a, b, c)] *)
Definition join3 (a b c : string) : string := join (join a b) c.

End OsPath.

(** ** Data model *)

(** The exceptions the script distinguishes in its [except] clauses. *)
Inductive exn :=
  | JSONDecodeError
  | TypeError
  | OSError
  | HTTPError
  | ConnectionError
  | Timeout
  | RequestException
  | OtherException.

(** A decoded JSON document, as [json.load] returns it.  Numbers are the
    integer ones. *)
#[warnings="-register-all"]
Inductive json :=
  | JNull
  | JBool (b : bool)
  | JNum (n : Z)
  | JStr (s : string)
  | JArr (items : list json)
  | JObj (members : list (string * json)).

(** The hashable Python values that can sit in the history set.  Python
    identifies [True] with [1] and [False] with [0] inside a set, so
    booleans are stored as integers. *)
Inductive pykey :=
  | KNone
  | KInt (n : Z)
  | KStr (s : string).

Global Instance pykey_eq_dec : EqDecision pykey.
Proof. solve_decision. Defined.

Global Instance pykey_countable : Countable pykey.
Proof.
  refine (inj_countable'
    (λ k, match k with
          | KNone => inl tt
          | KInt n => inr (inl n)
          | KStr s => inr (inr s)
          end)
    (λ x, match x with
          | inl _ => KNone
          | inr (inl n) => KInt n
          | inr (inr s) => KStr s
          end) _).
  intros []; reflexivity.
Defined.

(** What is on disk at [download_history_file], classified by what
    [open] and [json.load] make of it. *)
Inductive history_file :=
  | HistAbsent                 (* no such file *)
  | HistUnreadable             (* [open]/[read] raises *)
  | HistNotJson                (* [json.load] raises [JSONDecodeError] *)
  | HistJson (v : json).       (* [json.load] returns [v] *)

(** Outcome of [requests.get(url, timeout=10)] + [raise_for_status]. *)
Inductive page_response :=
  | PageText (text : string)
  | PageError (e : exn).

(** Outcome of the streamed download in [download_file]:
    the request fails before the local file is opened, the stream breaks
    after the file was created, or the whole body is written. *)
Inductive file_response :=
  | StreamError (e : exn)
  | StreamBroken (written : string) (e : exn)
  | StreamBody (body : string).

(** Observable effects, in the order they happen. *)
Inductive event :=
  | NetGetPage (url : string)
  | NetGetFile (url : string)
  | MsgPageError (url : string) (e : exn)
  | MsgHistoryLoaded
  | WarnHistoryCorrupt
  | WarnHistoryLoadError (e : exn)
  | MsgHistorySaved
  | MsgHistorySaveError
  | MsgNoFilename (url : string)
  | MsgAlreadyLocal (file_name : string)
  | MsgDownloadError (url : string) (e : exn)
  | MsgDownloaded (file_path : string)
  | WarnNotFound (file_path : string)
  | MsgUnknownRule (rule : string)
  | MsgMoved (src dst : string)
  | MsgMoveError (src dst : string)
  | MsgSkipInHistory (link : string)
  | MsgNotOrganized (file_path : string)
  | MsgNotDownloaded (link : string)
  | MsgNoLinks (url : string)
  | MsgPageUnavailable (url : string)
  | MsgNoTargetUrls
  | MsgNoAllowedExtensions
  | MsgNewFiles (n : nat)
  | MsgNoNewFiles
  | Sleep.

(** The world outside the script. *)
Record world := World {
  (** [link['href']] for [link] in
      [BeautifulSoup(html, 'html.parser').find_all('a', href=True)] *)
  soup_hrefs : string → list string;
  (** [urllib.parse.urljoin(base, href)] *)
  urljoin : string → string → string;
  (** [urllib.parse.urlparse(url).path] *)
  urlparse_path : string → string;
  (** the page request of [get_page_content] *)
  requests_get_page : string → page_response;
  (** the streamed request of [download_file] *)
  requests_get_file : string → file_response;
  (** whether [os.makedirs(d, exist_ok=True)] returns normally *)
  makedirs_ok : string → bool;
  (** whether [shutil.move(src, dst)] returns normally *)
  move_ok : string → string → bool;
  (** what a [shutil.move(src, dst)] that raises leaves at [dst]: nothing,
      or the copy it had begun before giving up *)
  move_leftover : string → string → option string;
  (** whether the history file can be opened for writing and dumped *)
  history_write_ok : bool;
  (** [datetime.now().strftime("%Y-%m-%d")] *)
  today : string;
}.

(** The configuration values [main] reads from the loaded dictionary. *)
Record config := Config {
  target_urls : list string;
  download_base_folder : string;
  organization_rule : string;
  allowed_extensions : list string;
}.

(** The mutable state: the files below the download folder (path to
    content), the history file, and the effects so far. *)
Record state := State {
  fs : gmap string string;
  hfile : history_file;
  trace : list event;
}.

(** ** Control: state, uncaught exceptions, and loop budget *)

Inductive outcome (A : Type) :=
  | Done (a : A) (s : state)
  | Uncaught (e : exn) (s : state)
  | OutOfFuel.
Arguments Done {A} a s.
Arguments Uncaught {A} e s.
Arguments OutOfFuel {A}.

Definition M (A : Type) : Type := state → outcome A.

Definition ret {A} (a : A) : M A := λ s, Done a s.

Definition bind {A B} (m : M A) (k : A → M B) : M B :=
  λ s, match m s with
       | Done a s' => k a s'
       | Uncaught e s' => Uncaught e s'
       | OutOfFuel => OutOfFuel
       end.

Notation "x <- m ;; k" := (bind m (λ x, k))
  (at level 100, m at next level, right associativity).
Notation "m ;;; k" := (bind m (λ _, k))
  (at level 100, right associativity).

Definition raise {A} (e : exn) : M A := λ s, Uncaught e s.

(** [try: m  except ...: h e] *)
Definition try_except {A} (m : M A) (h : exn → M A) : M A :=
  λ s, match m s with
       | Uncaught e s' => h e s'
       | r => r
       end.

Definition emit (e : event) : M unit :=
  λ s, Done tt (State (fs s) (hfile s) (trace s ++ [e])).

Definition get_fs : M (gmap string string) := λ s, Done (fs s) s.

Definition put_fs (f : gmap string string) : M unit :=
  λ s, Done tt (State f (hfile s) (trace s)).

Definition get_hfile : M history_file := λ s, Done (hfile s) s.

Definition put_hfile (h : history_file) : M unit :=
  λ s, Done tt (State (fs s) h (trace s)).

Definition lift_exn {A} (r : exn + A) : M A :=
  match r with
  | inl e => raise e
  | inr a => ret a
  end.

(** [os.path.exists(p)] on the download tree, for a path [p] that is
    either a regular file or absent. *)
Definition path_exists (f : gmap string string) (p : string) : bool :=
  bool_decide (is_Some (f !! p)).

(** ** HistoryStore *)

(** [hash(x)] succeeds on scalars and raises [TypeError] on lists and
    dictionaries. *)
Definition hashable (v : json) : exn + pykey :=
  match v with
  | JNull => inr KNone
  | JBool b => inr (KInt (if b then 1 else 0))
  | JNum n => inr (KInt n)
  | JStr s => inr (KStr s)
  | JArr _ | JObj _ => inl TypeError
  end.

Fixpoint set_of_items (items : list json) : exn + gset pykey :=
  match items with
  | [] => inr ∅
  | v :: rest =>
      match hashable v with
      | inl e => inl e
      | inr k =>
          match set_of_items rest with
          | inl e => inl e
          | inr s => inr ({[k]} ∪ s)
          end
      end
  end.

(** [set(history_list)]: iterate the decoded value. *)
Definition py_set (v : json) : exn + gset pykey :=
  match v with
  | JArr items => set_of_items items
  | JObj members => inr (list_to_set (KStr <$> members.*1))
  | JStr s => inr (list_to_set (KStr <$> PyStr.chars s))
  | JNull | JBool _ | JNum _ => inl TypeError
  end.

(** The decoded values [set] accepts: strings, objects, and arrays whose
    items are all scalars. *)
Definition is_scalar (v : json) : bool :=
  match v with
  | JArr _ | JObj _ => false
  | _ => true
  end.

Definition iterable_of_hashables (v : json) : bool :=
  match v with
  | JStr _ | JObj _ => true
  | JArr items => forallb is_scalar items
  | JNull | JBool _ | JNum _ => false
  end.

(** [open(path, 'r')] followed by [json.load]. *)
Definition open_and_load (h : history_file) : exn + json :=
  match h with
  | HistAbsent | HistUnreadable => inl OSError
  | HistNotJson => inl JSONDecodeError
  | HistJson v => inr v
  end.

Definition history_exists (h : history_file) : bool :=
  match h with
  | HistAbsent => false
  | _ => true
  end.

Definition load_download_history : M (gset pykey) :=
  h <- get_hfile ;;
  if history_exists h then
    try_except
      (history_list <- lift_exn (open_and_load h) ;;
       emit MsgHistoryLoaded ;;;
       lift_exn (py_set history_list))
      (λ e, match e with
            | JSONDecodeError => emit WarnHistoryCorrupt ;;; ret ∅
            | _ => emit (WarnHistoryLoadError e) ;;; ret ∅
            end)
  else ret ∅.

Definition key_json (k : pykey) : json :=
  match k with
  | KNone => JNull
  | KInt n => JNum n
  | KStr s => JStr s
  end.

(** [json.dump(list(downloaded_urls), f)]; a failure is caught and
    reported. *)
Definition save_download_history (w : world) (downloaded_urls : gset pykey)
    : M unit :=
  if history_write_ok w then
    put_hfile (HistJson (JArr (key_json <$> elements downloaded_urls))) ;;;
    emit MsgHistorySaved
  else emit MsgHistorySaveError.

Section Script.

Variable w : world.

(** ** Fetcher: page content *)

(** Every exception of the request is caught; the function then returns
    [None]. *)
Definition get_page_content (url : string) : M (option string) :=
  emit (NetGetPage url) ;;;
  match requests_get_page w url with
  | PageText text => ret (Some text)
  | PageError e => emit (MsgPageError url e) ;;; ret None
  end.

(** ** LinkExtractor *)

(** [any(absolute_url.lower().endswith(ext) for ext in allowed_extensions)] *)
Definition has_allowed_extension (allowed_extensions : list string)
    (absolute_url : string) : bool :=
  existsb (λ ext, PyStr.endswith (PyStr.lower absolute_url) ext)
          allowed_extensions.

(** The [for link in soup.find_all('a', href=True)] loop, threading
    [found_links]. *)
Fixpoint collect_links (base_url : string) (allowed_extensions : list string)
    (hrefs : list string) (found_links : list string) : list string :=
  match hrefs with
  | [] => found_links
  | href :: rest =>
      let absolute_url := urljoin w base_url href in
      if has_allowed_extension allowed_extensions absolute_url then
        if bool_decide (absolute_url ∈ found_links) then
          collect_links base_url allowed_extensions rest found_links
        else
          collect_links base_url allowed_extensions rest
                        (found_links ++ [absolute_url])
      else collect_links base_url allowed_extensions rest found_links
  end.

Definition find_download_links (html_content base_url : string)
    (allowed_extensions : list string) : list string :=
  collect_links base_url allowed_extensions (soup_hrefs w html_content) [].

(** ** Fetcher: file download *)

(** [os.makedirs(d, exist_ok=True)], called outside every [try]. *)
Definition makedirs (d : string) : M unit :=
  if makedirs_ok w d then ret tt else raise OSError.

Definition download_file (file_url destination_folder : string)
    : M (option string) :=
  let file_name := OsPath.basename (urlparse_path w file_url) in
  if bool_decide (file_name = "") then
    emit (MsgNoFilename file_url) ;;; ret None
  else
    let file_path := OsPath.join destination_folder file_name in
    makedirs destination_folder ;;;
    files <- get_fs ;;
    if path_exists files file_path then
      emit (MsgAlreadyLocal file_name) ;;; ret (Some file_path)
    else
      emit (NetGetFile file_url) ;;;
      match requests_get_file w file_url with
      | StreamError e =>
          emit (MsgDownloadError file_url e) ;;; ret None
      | StreamBroken written e =>
          put_fs (<[file_path := written]> files) ;;;
          emit (MsgDownloadError file_url e) ;;; ret None
      | StreamBody body =>
          put_fs (<[file_path := body]> files) ;;;
          emit (MsgDownloaded file_path) ;;; ret (Some file_path)
      end.

(** ** OrganizationPolicy *)

(** The name tried at round [counter] of the collision loop. *)
Definition numbered_name (stem ext : string) (counter : nat) : string :=
  stem +:+ "(" +:+ pretty counter +:+ ")" +:+ ext.

(** [while os.path.exists(final_file_path): ...] with a budget of
    iterations; [None] when the budget runs out before a free name is
    met. *)
Fixpoint collision_loop (fuel : nat) (files : gmap string string)
    (dir stem ext : string) (counter : nat) (final_file_path : string)
    : option string :=
  if path_exists files final_file_path then
    match fuel with
    | O => None
    | S fuel' =>
        let new_file_name := numbered_name stem ext counter in
        collision_loop fuel' files dir stem ext (S counter)
                       (OsPath.join dir new_file_name)
    end
  else Some final_file_path.

(** The two subfolders a rule selects, [None] for an unknown rule. *)
Definition rule_subfolders (rule_type file_extension : string)
    : option (string * string) :=
  let by_type :=
    if bool_decide (file_extension = "") then "Otros"
    else PyStr.capitalize file_extension in
  if bool_decide (rule_type = "date") then Some (today w, "")
  else if bool_decide (rule_type = "type") then Some (by_type, "")
  else if bool_decide (rule_type = "type_then_date") then
    Some (by_type, today w)
  else None.

Definition organize_file (file_path base_download_folder rule_type : string)
    : M (option string) :=
  files <- get_fs ;;
  if bool_decide (file_path = "") || negb (path_exists files file_path) then
    emit (WarnNotFound file_path) ;;; ret None
  else
    let file_name := OsPath.basename file_path in
    let file_extension :=
      PyStr.remove_char "."%char (PyStr.lower (OsPath.splitext file_name).2) in
    match rule_subfolders rule_type file_extension with
    | None => emit (MsgUnknownRule rule_type) ;;; ret None
    | Some (subfolder_1, subfolder_2) =>
        let final_destination_dir :=
          if bool_decide (subfolder_2 = "") then
            OsPath.join base_download_folder subfolder_1
          else OsPath.join3 base_download_folder subfolder_1 subfolder_2 in
        makedirs final_destination_dir ;;;
        let '(stem, ext) := OsPath.splitext file_name in
        match collision_loop (S (size files)) files final_destination_dir
                             stem ext 1
                             (OsPath.join final_destination_dir file_name)
        with
        | None => λ _, OutOfFuel
        | Some final_file_path =>
            if move_ok w file_path final_file_path then
              put_fs (<[final_file_path := default "" (files !! file_path)]>
                        (delete file_path files)) ;;;
              emit (MsgMoved file_path final_file_path) ;;;
              ret (Some final_file_path)
            else
              match move_leftover w file_path final_file_path with
              | Some copied => put_fs (<[final_file_path := copied]> files)
              | None => ret tt
              end ;;;
              emit (MsgMoveError file_path final_file_path) ;;; ret None
        end
    end.

(** ** PipelineOrchestrator *)

(** Truth value of a returned path: [None] and [''] are false. *)
Definition truthy (r : option string) : bool :=
  match r with
  | Some p => negb (bool_decide (p = ""))
  | None => false
  end.

(** One round of [for link in download_links]. *)
Definition process_link (force_download : bool) (cfg : config)
    (link : string) (history : gset pykey) : M (gset pykey) :=
  if bool_decide (KStr link ∈ history) && negb force_download then
    emit (MsgSkipInHistory link) ;;; ret history
  else
    downloaded_file_path <- download_file link (download_base_folder cfg) ;;
    history' <-
      (if truthy downloaded_file_path then
         organized_path <-
           organize_file (default "" downloaded_file_path)
                         (download_base_folder cfg)
                         (organization_rule cfg) ;;
         if truthy organized_path then ret ({[KStr link]} ∪ history)
         else
           emit (MsgNotOrganized (default "" downloaded_file_path)) ;;;
           ret history
       else emit (MsgNotDownloaded link) ;;; ret history) ;;
    emit Sleep ;;; ret history'.

Fixpoint process_links (force_download : bool) (cfg : config)
    (download_links : list string) (history : gset pykey)
    : M (gset pykey) :=
  match download_links with
  | [] => ret history
  | link :: rest =>
      history' <- process_link force_download cfg link history ;;
      process_links force_download cfg rest history'
  end.

(** One round of [for url in TARGET_URLS]. *)
Definition process_url (force_download : bool) (cfg : config)
    (url : string) (history : gset pykey) : M (gset pykey) :=
  html_content <- get_page_content url ;;
  history' <-
    (if truthy html_content then
       let download_links :=
         find_download_links (default "" html_content) url
                             (allowed_extensions cfg) in
       match download_links with
       | [] => emit (MsgNoLinks url) ;;; ret history
       | _ => process_links force_download cfg download_links history
       end
     else emit (MsgPageUnavailable url) ;;; ret history) ;;
  emit Sleep ;;; ret history'.

Fixpoint process_urls (force_download : bool) (cfg : config)
    (urls : list string) (history : gset pykey) : M (gset pykey) :=
  match urls with
  | [] => ret history
  | url :: rest =>
      history' <- process_url force_download cfg url history ;;
      process_urls force_download cfg rest history'
  end.

(** The history persistence logic closing [main]. *)
Definition persist_history (initial_downloaded_count : nat)
    (history : gset pykey) : M unit :=
  if Nat.ltb initial_downloaded_count (size history) then
    emit (MsgNewFiles (size history - initial_downloaded_count)) ;;;
    save_download_history w history
  else emit MsgNoNewFiles.

(** [main], from the point where the configuration is loaded.  The
    result is the in-memory history when the run reaches the end, and
    [None] on the early returns. *)
Definition main (force_download : bool) (cfg : config)
    : M (option (gset pykey)) :=
  match target_urls cfg with
  | [] => emit MsgNoTargetUrls ;;; ret None
  | _ =>
      match allowed_extensions cfg with
      | [] => emit MsgNoAllowedExtensions ;;; ret None
      | _ =>
          makedirs (download_base_folder cfg) ;;;
          downloaded_urls_history <- load_download_history ;;
          let initial_downloaded_count := size downloaded_urls_history in
          history <-
            process_urls force_download cfg (target_urls cfg)
                         downloaded_urls_history ;;
          persist_history initial_downloaded_count history ;;;
          ret (Some history)
      end
  end.

End Script.

(** ** Names for the intermediate values of [organize_file] *)

(** [file_extension]: the lower-cased extension of the file name, dots
    removed. *)
Definition file_extension_of (file_path : string) : string :=
  PyStr.remove_char "."%char
    (PyStr.lower (OsPath.splitext (OsPath.basename file_path)).2).

(** [final_destination_dir], when the rule is known. *)
Definition destination_dir (w : world)
    (base_download_folder rule_type file_path : string) : option string :=
  match rule_subfolders w rule_type (file_extension_of file_path) with
  | None => None
  | Some (subfolder_1, subfolder_2) =>
      Some (if bool_decide (subfolder_2 = "") then
              OsPath.join base_download_folder subfolder_1
            else OsPath.join3 base_download_folder subfolder_1 subfolder_2)
  end.

(** ** The specification's reading of the extension filter *)

(** A suffix test that ignores the case of the URL and of the configured
    suffix alike. *)
Definition endswith_ignoring_case (url suffix : string) : bool :=
  PyStr.endswith (PyStr.lower url) (PyStr.lower suffix).

Definition allowed_ignoring_case (allowed_extensions : list string)
    (url : string) : bool :=
  existsb (endswith_ignoring_case url) allowed_extensions.

(** Whether [c] occurs in [s]. *)
Fixpoint contains_char (c : ascii) (s : string) : bool :=
  match s with
  | EmptyString => false
  | String d r => bool_decide (d = c) || contains_char c r
  end.

(** ** A concrete world for the examples *)

Module Demo.
Import PyStr.

(** The pages used in the examples and the [href] values the parser
    reports for them. *)
Definition page_upper : string := "<a href='/docs/Report.PDF'>report</a>".
Definition page_lower : string :=
  "<a href='https://example.com/docs/report.pdf'>report</a>".
Definition page_query : string :=
  "<a href='https://example.com/a.pdf?mirror=b.pdf'>a</a><a href='https://example.com/get?file=report.pdf'>b</a><a href='https://example.com/c.pdf?v=2'>c</a>".
Definition page_two : string :=
  "<a href='https://example.com/a.txt'>a</a>".

Definition hrefs (html : string) : list string :=
  if bool_decide (html = page_upper) then ["/docs/Report.PDF"]
  else if bool_decide (html = page_lower) then
    ["https://example.com/docs/report.pdf"]
  else if bool_decide (html = page_query) then
    ["https://example.com/a.pdf?mirror=b.pdf";
     "https://example.com/get?file=report.pdf";
     "https://example.com/c.pdf?v=2"]
  else if bool_decide (html = page_two) then ["https://example.com/a.txt"]
  else [].

Fixpoint strip_prefix (pre s : string) : option string :=
  match pre, s with
  | EmptyString, _ => Some s
  | String a pre', String b s' =>
      if bool_decide (a = b) then strip_prefix pre' s' else None
  | String _ _, EmptyString => None
  end.

(** What follows the first [c], with [c] itself. *)
Fixpoint from_char (c : ascii) (s : string) : string :=
  match s with
  | EmptyString => EmptyString
  | String d r => if bool_decide (d = c) then s else from_char c r
  end.

(** What precedes the first [?] or [#]. *)
Fixpoint before_query (s : string) : string :=
  match s with
  | EmptyString => EmptyString
  | String d r =>
      if bool_decide (d = "?"%char) || bool_decide (d = "#"%char)
      then EmptyString
      else String d (before_query r)
  end.

(** The path of an [https://host/path?query#fragment] URL. *)
Definition path (url : string) : string :=
  match strip_prefix "https://" url with
  | Some rest => before_query (from_char "/" rest)
  | None => before_query url
  end.

(** The [https://host] part of an [https://host/...] URL. *)
Fixpoint until_char (c : ascii) (s : string) : string :=
  match s with
  | EmptyString => EmptyString
  | String d r => if bool_decide (d = c) then EmptyString
                  else String d (until_char c r)
  end.

Definition origin (url : string) : string :=
  match strip_prefix "https://" url with
  | Some rest => "https://" +:+ until_char "/" rest
  | None => EmptyString
  end.

(** Reference resolution for the two shapes the examples use: a
    reference that is itself an [https] URL, and an absolute path. *)
Definition join_url (base href : string) : string :=
  match strip_prefix "https://" href with
  | Some _ => href
  | None => origin base +:+ href
  end.

Definition world_with (pages : string → page_response)
    (files : string → file_response) (mk : string → bool)
    (mv : string → string → bool) : world :=
  {| soup_hrefs := hrefs;
     urljoin := join_url;
     urlparse_path := path;
     requests_get_page := pages;
     requests_get_file := files;
     makedirs_ok := mk;
     move_ok := mv;
     move_leftover := λ _ _, None;
     history_write_ok := true;
     today := "2024-05-01" |}.

(** A world serving one page with one link to [a.txt]. *)
Definition serve_page (url : string) : page_response :=
  if bool_decide (url = "https://example.com/") then PageText page_two
  else PageError HTTPError.

Definition serve_file (url : string) : file_response :=
  if bool_decide (url = "https://example.com/a.txt") then StreamBody "first"
  else StreamError HTTPError.

Definition online : world :=
  world_with serve_page serve_file (λ _, true) (λ _ _, true).

(** The same world, except that only the base folder can be created:
    [downloads/Txt] is, say, an existing regular file. *)
Definition blocked : world :=
  world_with serve_page serve_file
             (λ d, bool_decide (d = "downloads")) (λ _ _, true).

Definition cfg (rule : string) : config :=
  {| target_urls := ["https://example.com/"];
     download_base_folder := "downloads";
     organization_rule := rule;
     allowed_extensions := [".txt"] |}.

Definition fresh : state := State ∅ HistAbsent [].

(** A second [a.txt] is staged while an organized [a.txt] exists. *)
Definition staged_twice : state :=
  State (<["downloads/a.txt" := "second"]>
           (<["downloads/Txt/a.txt" := "first"]> ∅))
        HistAbsent [].

(** A world where nothing is served and every system call succeeds. *)
Definition offline : world :=
  world_with (λ _, PageError ConnectionError)
             (λ _, StreamError ConnectionError)
             (λ _, true) (λ _ _, true).

End Demo.

(** ** Reasoning about runs *)

(** [wp m s Q E]: from [s], [m] ends normally in a state satisfying [Q],
    or with an uncaught exception in a state satisfying [E]; it does not
    exhaust a loop budget. *)
Definition wp {A} (m : M A) (s : state)
    (Q : A → state → Prop) (E : exn → state → Prop) : Prop :=
  match m s with
  | Done a s' => Q a s'
  | Uncaught e s' => E e s'
  | OutOfFuel => False
  end.

(** The state a run ends in, whether normally or not. *)
Definition final_state {A} (o : outcome A) : option state :=
  match o with
  | Done _ s | Uncaught _ s => Some s
  | OutOfFuel => None
  end.

(** Network requests among the effects. *)
Definition is_request (e : event) : bool :=
  match e with
  | NetGetPage _ | NetGetFile _ => true
  | _ => false
  end.

(** The run reached the history persistence logic of [main]: its last
    effect is one of the three ways that logic ends. *)
Definition reached_persistence (tr : list event) : Prop :=
  ∃ before last,
    tr = before ++ [last] ∧
    (last = MsgHistorySaved ∨ last = MsgHistorySaveError ∨ last = MsgNoNewFiles).

(** What the loops of [main] maintain: a run keeps the history file and
    only adds to the history set; an uncaught exception can only come
    from a directory that cannot be created. *)
Definition loop_post (h : gset pykey) (s : state)
    : gset pykey → state → Prop :=
  λ h' s', hfile s' = hfile s ∧ h ⊆ h'.

Definition loop_crash (w : world) (s : state) : exn → state → Prop :=
  λ _ s', hfile s' = hfile s ∧ ∃ d, makedirs_ok w d = false.

(** The link of the example page, and the states the example runs end
    in. *)
Definition demo_link : string := "https://example.com/a.txt".

Definition demo_done : state :=
  State {["downloads/Txt/a.txt" := "first"]} HistAbsent
        [NetGetFile demo_link; MsgDownloaded "downloads/a.txt";
         MsgMoved "downloads/a.txt" "downloads/Txt/a.txt"; Sleep].

Definition demo_history : history_file :=
  HistJson (JArr [JStr demo_link]).

Definition demo_rerun_end : state :=
  State {["downloads/Txt/a.txt" := "first"]} demo_history
        [MsgHistoryLoaded; NetGetPage "https://example.com/";
         NetGetFile demo_link; MsgDownloaded "downloads/a.txt";
         MsgMoved "downloads/a.txt" "downloads/Txt/a.txt"; Sleep; Sleep;
         MsgNoNewFiles].

(** ** Vocabulary for the further properties *)

(** The URLs of the file requests in a trace, in order. *)
Definition file_requests (tr : list event) : list string :=
  omap (λ e, match e with NetGetFile u => Some u | _ => None end) tr.

(** The URLs of the page requests in a trace, in order. *)
Definition page_requests (tr : list event) : list string :=
  omap (λ e, match e with NetGetPage u => Some u | _ => None end) tr.

(** The elements of a list, each at its first appearance. *)
Fixpoint first_occurrences (l : list string) : list string :=
  match l with
  | [] => []
  | x :: rest => x :: filter (λ y, y ≠ x) (first_occurrences rest)
  end.

(** [link] is extracted from a page of [urls] that the world serves with
    a non-empty body. *)
Definition found_on_pages (w : world) (cfg : config) (urls : list string)
    (link : string) : Prop :=
  ∃ url text,
    url ∈ urls ∧ requests_get_page w url = PageText text ∧ text ≠ "" ∧
    link ∈ find_download_links w text url (allowed_extensions cfg).

(** What processing one link adds to the requests: no page request, and
    at most one file request, for that link, which without the force
    flag is not in the history. *)
Definition link_requests (force : bool) (link : string) (h : gset pykey)
    (s s' : state) : Prop :=
  page_requests (trace s') = page_requests (trace s) ∧
  (file_requests (trace s') = file_requests (trace s) ∨
   (file_requests (trace s') = file_requests (trace s) ++ [link] ∧
    (force = false → KStr link ∉ h))).

(** The file requests made between [s] and [s'] are for links satisfying
    [from], none of them, without the force flag, in the history [h]. *)
Definition new_file_requests (from : string → Prop) (force : bool)
    (h : gset pykey) (s s' : state) : Prop :=
  ∃ reqs,
    file_requests (trace s') = file_requests (trace s) ++ reqs ∧
    ∀ u, u ∈ reqs → from u ∧ (force = false → KStr u ∉ h).

(** The history [h'] holds [h] and otherwise only links satisfying
    [from]. *)
Definition history_grown_by (from : string → Prop) (h h' : gset pykey)
    : Prop :=
  h ⊆ h' ∧ ∀ k, k ∈ h' → k ∈ h ∨ ∃ link, k = KStr link ∧ from link.

(** ** Configuration loading: [load_config] and the head of [main] *)

(** What is on disk at the configuration path, classified by what [open]
    and [json.load] make of it. *)
Inductive config_file :=
  | ConfigAbsent
  | ConfigUnreadable
  | ConfigNotJson
  | ConfigJson (v : json).

Inductive config_exn :=
  | FileNotFoundError
  | ConfigJSONDecodeError
  | ConfigOtherError
  | AttributeError.

(** The diagnostics of [load_config] and of the head of [main]. *)
Inductive config_msg :=
  | MsgConfigLoading
  | MsgConfigLoaded
  | MsgConfigNotFound
  | MsgConfigNotJson
  | MsgConfigUnexpected
  | MsgConfigNotLoaded.

(** [open(config_path, 'r')] followed by [json.load]. *)
Definition open_and_load_config (f : config_file) : config_exn + json :=
  match f with
  | ConfigAbsent => inl FileNotFoundError
  | ConfigUnreadable => inl ConfigOtherError
  | ConfigNotJson => inl ConfigJSONDecodeError
  | ConfigJson v => inr v
  end.

(** [load_config]: the diagnostics printed and the value returned, with
    [JNull] for Python's [None]. *)
Definition load_config (f : config_file) : list config_msg * json :=
  match open_and_load_config f with
  | inr config => ([MsgConfigLoading; MsgConfigLoaded], config)
  | inl FileNotFoundError => ([MsgConfigLoading; MsgConfigNotFound], JNull)
  | inl ConfigJSONDecodeError => ([MsgConfigLoading; MsgConfigNotJson], JNull)
  | inl _ => ([MsgConfigLoading; MsgConfigUnexpected], JNull)
  end.

(** [not v] on a decoded JSON value. *)
Definition py_not (v : json) : bool :=
  match v with
  | JNull => true
  | JBool b => negb b
  | JNum n => bool_decide (n = 0%Z)
  | JStr s => bool_decide (s = "")
  | JArr [] => true
  | JArr (_ :: _) => false
  | JObj [] => true
  | JObj (_ :: _) => false
  end.

(** [config.get(key, default)] on the dictionary decoded from an object:
    of several members with the same key the last one counts. *)
Fixpoint dict_get (members : list (string * json)) (key : string)
    (default : json) : json :=
  match members with
  | [] => default
  | (k, v) :: rest =>
      if bool_decide (k = key) then dict_get rest key v
      else dict_get rest key default
  end.

(** The six values [main] reads from the configuration. *)
Record settings := Settings {
  TARGET_URLS : json;
  DOWNLOAD_BASE_FOLDER : json;
  ORGANIZATION_RULE : json;
  ALLOWED_EXTENSIONS : json;
  REQUEST_DELAY_SECONDS : json;
  DOWNLOAD_HISTORY_FILE : json;
}.

Inductive startup :=
  | StartStopped (msgs : list config_msg)
  | StartCrashed (msgs : list config_msg) (e : config_exn)
  | StartReady (msgs : list config_msg) (st : settings).

(** The head of [main]: load the configuration, return when it is
    false, read the six settings.  [config.get] exists on dictionaries
    only. *)
Definition main_startup (f : config_file) : startup :=
  let '(msgs, config) := load_config f in
  if py_not config then StartStopped (msgs ++ [MsgConfigNotLoaded])
  else
    match config with
    | JObj members =>
        StartReady msgs
          {| TARGET_URLS := dict_get members "target_urls" (JArr []);
             DOWNLOAD_BASE_FOLDER :=
               dict_get members "download_base_folder" (JStr "downloads");
             ORGANIZATION_RULE :=
               dict_get members "organization_rule" (JStr "date");
             ALLOWED_EXTENSIONS :=
               dict_get members "allowed_extensions" (JArr []);
             REQUEST_DELAY_SECONDS :=
               dict_get members "request_delay_seconds" (JNum 2);
             DOWNLOAD_HISTORY_FILE :=
               dict_get members "download_history_file"
                        (JStr "downloaded_files_history.json") |}
    | _ => StartCrashed msgs AttributeError
    end.

(** The strings of an array of strings. *)
Fixpoint strings_of (items : list json) : option (list string) :=
  match items with
  | [] => Some []
  | JStr s :: rest =>
      match strings_of rest with
      | Some l => Some (s :: l)
      | None => None
      end
  | _ :: _ => None
  end.

(** The settings as the record the rest of [main] is modelled on, when
    every value has the type the script expects. *)
Definition settings_config (st : settings) : option config :=
  match TARGET_URLS st, DOWNLOAD_BASE_FOLDER st, ORGANIZATION_RULE st,
        ALLOWED_EXTENSIONS st with
  | JArr urls, JStr base, JStr rule, JArr exts =>
      match strings_of urls, strings_of exts with
      | Some urls', Some exts' =>
          Some {| target_urls := urls';
                  download_base_folder := base;
                  organization_rule := rule;
                  allowed_extensions := exts' |}
      | _, _ => None
      end
  | _, _, _, _ => None
  end.

(** [value] is what [config.get(key, default)] gives on [members]: the
    default when no member has the key, and the value of the last member
    when the object ends with one that has it. *)
Definition setting_of (members : list (string * json)) (key : string)
    (default value : json) : Prop :=
  (key ∉ members.*1 → value = default) ∧
  (∀ before v, members = before ++ [(key, v)] → value = v).

(** A configuration object that names extensions but no target page. *)
Definition only_extensions : list (string * json) :=
  [("allowed_extensions", JArr [JStr ".pdf"])].

(** The file requests a run makes from [s] on are for links found on
    the served target pages and, without the force flag, for none that
    the history loaded at the start holds. *)
Definition run_file_requests (w : world) (force : bool) (cfg : config)
    (s s' : state) : Prop :=
  ∃ reqs,
    file_requests (trace s') = file_requests (trace s) ++ reqs ∧
    ∀ u, u ∈ reqs →
         found_on_pages w cfg (target_urls cfg) u ∧
         (force = false →
          ∀ h0 s0, load_download_history s = Done h0 s0 → KStr u ∉ h0).

(** A configuration without target pages, in a world where no directory
    can be created. *)
Definition no_targets : config :=
  {| target_urls := [];
     download_base_folder := "downloads";
     organization_rule := "type";
     allowed_extensions := [".txt"] |}.

Definition read_only : world :=
  Demo.world_with Demo.serve_page Demo.serve_file (λ _, false) (λ _ _, true).

(** A world where every move raises after copying three bytes to the
    destination. *)
Definition stuck : world :=
  {| soup_hrefs := Demo.hrefs;
     urljoin := Demo.join_url;
     urlparse_path := Demo.path;
     requests_get_page := Demo.serve_page;
     requests_get_file := Demo.serve_file;
     makedirs_ok := λ _, true;
     move_ok := λ _ _, false;
     move_leftover := λ _ _, Some "sec";
     history_write_ok := true;
     today := "2024-05-01" |}.

(** A third [report.tar.gz] is staged while [report.tar.gz] and
    [report.tar(1).gz] are already organized. *)
Definition staged_over_two : state :=
  State (<["downloads/report.tar.gz" := "third"]>
           (<["downloads/Gz/report.tar.gz" := "first"]>
              (<["downloads/Gz/report.tar(1).gz" := "second"]> ∅)))
        HistAbsent [].

(** A world whose file server breaks the stream after three bytes. *)
Definition flaky : world :=
  Demo.world_with Demo.serve_page (λ _, StreamBroken "fir" ConnectionError)
                  (λ _, true) (λ _ _, true).

(** * Properties *)

(** ** Strings *)

Section StringFacts.
Import PyStr.
Local Arguments String.append _ _ : simpl nomatch.

Lemma app_empty_r_s (s : string) : s +:+ "" = s.
Proof. induction s as [|c s IH]; simpl; [done | by rewrite IH]. Qed.

Lemma app_assoc_s (a b c : string) : (a +:+ b) +:+ c = a +:+ (b +:+ c).
Proof. induction a as [|x a IH]; simpl; [done | by rewrite IH]. Qed.

Lemma app_length_s (a b : string) :
  String.length (a +:+ b) = (String.length a + String.length b)%nat.
Proof. induction a as [|x a IH]; simpl; [done | by rewrite IH]. Qed.

Lemma app_inv_head_s (a b c : string) : a +:+ b = a +:+ c → b = c.
Proof. induction a as [|x a IH]; simpl; [done | intros [= H]; auto]. Qed.

Lemma app_inv_tail_s (a b c : string) : a +:+ c = b +:+ c → a = b.
Proof.
  revert b. induction a as [|x a IH]; intros [|y b]; simpl; intros H.
  - done.
  - apply (f_equal String.length) in H. simpl in H.
    rewrite app_length_s in H. lia.
  - apply (f_equal String.length) in H. simpl in H.
    rewrite app_length_s in H. lia.
  - injection H as -> H. f_equal. by apply IH.
Qed.

Lemma lower_app (a b : string) : lower (a +:+ b) = lower a +:+ lower b.
Proof. induction a as [|x a IH]; simpl; [done | by rewrite IH]. Qed.

Lemma endswith_spec (s suf : string) :
  endswith s suf = true ↔ ∃ p, s = p +:+ suf.
Proof.
  induction s as [|c s IH]; simpl.
  - rewrite orb_false_r, bool_decide_eq_true. split.
    + intros <-. by exists "".
    + intros [[|? ?] H]; simpl in H; [done | discriminate].
  - rewrite orb_true_iff, bool_decide_eq_true, IH. split.
    + intros [<- | [p ->]]; [by exists "" | by exists (String c p)].
    + intros [[|d p] H]; simpl in H; [by left |].
      injection H as -> ->. right. by exists p.
Qed.

Lemma endswith_app_l (a s suf : string) :
  endswith s suf = true → endswith (a +:+ s) suf = true.
Proof.
  rewrite !endswith_spec. intros [p ->]. exists (a +:+ p).
  by rewrite app_assoc_s.
Qed.

Lemma contains_char_app (c : ascii) (a b : string) :
  contains_char c (a +:+ b) = contains_char c a || contains_char c b.
Proof.
  induction a as [|x a IH]; simpl; [done |].
  by rewrite IH, orb_assoc.
Qed.

(** A suffix free of [c] of a string [a c b] lies inside [b]. *)
Lemma endswith_after_char (c : ascii) (a b suf : string) :
  contains_char c suf = false →
  endswith (a +:+ String c b) suf = true → endswith b suf = true.
Proof.
  intros Hc. induction a as [|x a IH]; simpl.
  - rewrite orb_true_iff, bool_decide_eq_true. intros [<- | H]; [|done].
    simpl in Hc. by rewrite bool_decide_eq_true_2 in Hc.
  - rewrite orb_true_iff, bool_decide_eq_true. intros [<- | H]; [|auto].
    simpl in Hc. rewrite contains_char_app in Hc. simpl in Hc.
    rewrite (bool_decide_eq_true_2 (c = c)) in Hc by done.
    rewrite orb_true_r in Hc. simpl in Hc.
    by rewrite orb_true_r in Hc.
Qed.

Lemma split_last_some (sep : ascii) (s a b : string) :
  split_last sep s = Some (a, b) → s = a +:+ String sep b.
Proof.
  revert a b. induction s as [|c s IH]; intros a b; simpl; [done |].
  destruct (split_last sep s) as [[a' b']|] eqn:E.
  - intros [= <- <-]. simpl. f_equal. by apply IH.
  - case_bool_decide as Hc; [| done]. intros [= <- <-]. by subst.
Qed.

(** [splitext] cuts its argument in two. *)
Lemma split_last_none (sep : ascii) (s : string) :
  split_last sep s = None ↔ contains_char sep s = false.
Proof.
  induction s as [|c s IH]; simpl; [done |].
  destruct (split_last sep s) as [[a b]|].
  - split; [done |]. intros H. apply orb_false_iff in H as [_ H].
    apply IH in H. done.
  - case_bool_decide; simpl; [done |]. split; [intros _ | done].
    by apply IH.
Qed.

Lemma split_last_tail_free (sep : ascii) (s a b : string) :
  split_last sep s = Some (a, b) → contains_char sep b = false.
Proof.
  revert a b. induction s as [|c s IH]; intros a b; simpl; [done |].
  destruct (split_last sep s) as [[a' b']|] eqn:E.
  - intros [= <- <-]. by apply (IH a').
  - case_bool_decide; [| done]. intros [= <- <-]. by apply split_last_none.
Qed.

Lemma splitext_app (p : string) :
  (OsPath.splitext p).1 +:+ (OsPath.splitext p).2 = p.
Proof.
  unfold OsPath.splitext.
  destruct (split_last "/" p) as [[d n]|] eqn:Hslash.
  - destruct (split_last "." n) as [[stem e]|] eqn:Hdot;
      [| apply app_empty_r_s].
    destruct (all_char "." stem); [apply app_empty_r_s |]. simpl.
    apply split_last_some in Hslash as ->.
    apply split_last_some in Hdot as ->.
    rewrite !app_assoc_s. by simpl.
  - destruct (split_last "." p) as [[stem e]|] eqn:Hdot;
      [| apply app_empty_r_s].
    destruct (all_char "." stem); [apply app_empty_r_s |]. simpl.
    by apply split_last_some in Hdot as ->.
Qed.

Lemma lower_ascii_not_upper (c : ascii) : is_upper (lower_ascii c) = false.
Proof.
  unfold lower_ascii. destruct (is_upper c) eqn:E; [|done].
  revert E. destruct c as [[] [] [] [] [] [] [] []]; vm_compute; congruence.
Qed.

(** The second half [splitext] returns is empty, or a dot followed by
    characters that hold no further dot. *)
Lemma splitext_ext_shape (p : string) :
  (OsPath.splitext p).2 = "" ∨
  ∃ e, (OsPath.splitext p).2 = "." +:+ e ∧ contains_char "." e = false.
Proof.
  unfold OsPath.splitext.
  destruct (split_last "/" p) as [[d n]|].
  - destruct (split_last "." n) as [[stem e]|] eqn:Hdot; [| by left].
    destruct (all_char "." stem); [by left |]. right. exists e.
    split; [done |]. by apply split_last_tail_free in Hdot.
  - destruct (split_last "." p) as [[stem e]|] eqn:Hdot; [| by left].
    destruct (all_char "." stem); [by left |]. right. exists e.
    split; [done |]. by apply split_last_tail_free in Hdot.
Qed.

End StringFacts.

(** ** LinkExtractor *)

Section LinkExtractor.
Import PyStr.
Local Arguments String.append _ _ : simpl nomatch.
Variable w : world.

Lemma has_allowed_extension_spec (allowed : list string) (u : string) :
  has_allowed_extension allowed u = true ↔
  ∃ ext, ext ∈ allowed ∧ ∃ p, lower u = p +:+ ext.
Proof.
  unfold has_allowed_extension. rewrite existsb_exists. split.
  - intros (ext & Hin & He). exists ext. split.
    + by apply list_elem_of_In.
    + by apply endswith_spec.
  - intros (ext & Hin & He). exists ext. split.
    + by apply list_elem_of_In.
    + by apply endswith_spec.
Qed.

Lemma collect_links_elem (base : string) (allowed hrefs found : list string)
    (u : string) :
  u ∈ collect_links w base allowed hrefs found ↔
  u ∈ found ∨
  (u ∈ (urljoin w base <$> hrefs) ∧ has_allowed_extension allowed u = true).
Proof.
  revert found. induction hrefs as [|href rest IH]; intros found; simpl.
  - rewrite elem_of_nil. tauto.
  - rewrite elem_of_cons.
    destruct (has_allowed_extension allowed (urljoin w base href)) eqn:Ha.
    + case_bool_decide as Hin; rewrite IH.
      * split; [tauto |]. intros [? | [[-> | ?] ?]]; auto.
      * rewrite elem_of_app, list_elem_of_singleton. split.
        -- intros [[? | ->] | [? ?]]; auto.
        -- intros [? | [[-> | ?] ?]]; auto.
    + rewrite IH. split; [tauto |].
      intros [? | [[-> | ?] Hu]]; auto. congruence.
Qed.

Lemma collect_links_NoDup (base : string) (allowed hrefs found : list string) :
  NoDup found → NoDup (collect_links w base allowed hrefs found).
Proof.
  revert found. induction hrefs as [|href rest IH]; intros found Hnd; simpl.
  - done.
  - destruct (has_allowed_extension allowed (urljoin w base href)); [|auto].
    case_bool_decide as Hin; [auto |].
    apply IH. apply NoDup_app. split; [done |]. split.
    + intros x Hx ->%list_elem_of_singleton. done.
    + apply NoDup_singleton.
Qed.

(** Earlier finds keep their place: the loop only appends. *)
Lemma collect_links_prefix (base : string) (allowed hrefs found : list string) :
  found `prefix_of` collect_links w base allowed hrefs found.
Proof.
  revert found. induction hrefs as [|href rest IH]; intros found; simpl.
  - done.
  - destruct (has_allowed_extension allowed (urljoin w base href)); [|auto].
    case_bool_decide; [auto |].
    etrans; [| apply IH]. by apply prefix_app_r.
Qed.

(** A configured suffix with an upper-case letter matches nothing. *)
Lemma endswith_lower_upper_suffix (u ext : string) :
  existsb_char_upper ext = true → endswith (lower u) ext = false.
Proof.
  intros Hup. destruct (endswith (lower u) ext) eqn:E; [|done].
  apply endswith_spec in E as [p Hp]. exfalso.
  assert (Hno : ∀ s, existsb_char_upper (lower s) = false).
  { induction s as [|c s IHs]; simpl; [done |].
    by rewrite lower_ascii_not_upper, IHs. }
  specialize (Hno u). rewrite Hp in Hno.
  clear Hp. induction p as [|c p IHp]; simpl in Hno.
  - congruence.
  - apply orb_false_iff in Hno as [_ Hno]. auto.
Qed.

(** Links are reported once per page. *)
Lemma find_download_links_NoDup (html base : string) (allowed : list string) :
  NoDup (find_download_links w html base allowed).
Proof. apply collect_links_NoDup, NoDup_nil_2. Qed.

(** Suffixes that all carry an upper-case letter retain nothing. *)
Lemma upper_case_suffixes_retain_nothing (html base : string)
    (allowed : list string) :
  forallb existsb_char_upper allowed = true →
  find_download_links w html base allowed = [].
Proof.
  intros Hup.
  assert (Hnone : ∀ u, has_allowed_extension allowed u = false).
  { intros u. unfold has_allowed_extension.
    induction allowed as [|ext rest IH]; simpl in *; [done |].
    apply andb_true_iff in Hup as [Hext Hrest].
    rewrite endswith_lower_upper_suffix by done. simpl. auto. }
  unfold find_download_links.
  induction (soup_hrefs w html) as [|href rest IH]; simpl; [done |].
  by rewrite Hnone.
Qed.

End LinkExtractor.

Section ExtensionFilter.
Import PyStr.

Example extract_upper_case_link :
  find_download_links Demo.offline Demo.page_upper "https://example.com/"
                      [".pdf"]
  = ["https://example.com/docs/Report.PDF"].
Proof. reflexivity. Qed.

Example extract_with_upper_case_suffix :
  find_download_links Demo.offline Demo.page_lower "https://example.com/"
                      [".PDF"]
  = [].
Proof. reflexivity. Qed.

Example extract_query_links :
  find_download_links Demo.offline Demo.page_query "https://example.com/"
                      [".pdf"]
  = ["https://example.com/a.pdf?mirror=b.pdf";
     "https://example.com/get?file=report.pdf"].
Proof. reflexivity. Qed.

(** C1 (as amended).  A hyperlink is retained by [find_download_links]
    if and only if it is the resolution of some [href] of the page and
    its lower-cased absolute URL ends with one of the allowed suffixes
    taken literally, exactly as configured: only the URL is lower-cased,
    the suffix is not. *)
Theorem link_retained_iff_lowered_url_ends_with_literal_suffix
    (w : world) (html base : string) (allowed : list string) (u : string) :
  u ∈ find_download_links w html base allowed ↔
  u ∈ (urljoin w base <$> soup_hrefs w html) ∧
  ∃ ext, ext ∈ allowed ∧ ∃ p, lower u = p +:+ ext.
Proof.
  unfold find_download_links.
  rewrite collect_links_elem, elem_of_nil, has_allowed_extension_spec.
  tauto.
Qed.

(** C1, the claim as written fails: with [allowed = [".PDF"]] a page
    link ending in [.pdf] matches when both sides are compared without
    regard to case, yet the extractor drops it. *)
Lemma pdf_link_dropped_under_upper_case_suffix :
  let url := "https://example.com/docs/report.pdf" in
  url ∈ (urljoin Demo.offline "https://example.com/"
           <$> soup_hrefs Demo.offline Demo.page_lower) ∧
  allowed_ignoring_case [".PDF"] url = true ∧
  url ∉ find_download_links Demo.offline Demo.page_lower
                            "https://example.com/" [".PDF"].
Proof.
  split; [| split].
  - apply list_elem_of_In. vm_compute. by left.
  - reflexivity.
  - rewrite extract_with_upper_case_suffix. apply not_elem_of_nil.
Qed.

(** C3 (as amended).  The suffix test reads the raw resolved URL string,
    never the path: a retained link is one whose whole lower-cased URL
    ends with an allowed suffix, and, when no allowed suffix contains a
    question mark, a link [p?q] is retained exactly when it is a
    resolved [href] whose query part [q], lower-cased, ends with an
    allowed suffix.  So a link whose path ends with an allowed extension
    is not matched unless its trailing query string itself ends with
    one. *)
Theorem link_with_query_is_matched_on_its_query
    (w : world) (html base : string) (allowed : list string)
    (p q : string) :
  forallb (λ ext, negb (contains_char "?" ext)) allowed = true →
  (p +:+ "?" +:+ q ∈ find_download_links w html base allowed →
   has_allowed_extension allowed (p +:+ "?" +:+ q) = true) ∧
  (p +:+ "?" +:+ q ∈ find_download_links w html base allowed ↔
   p +:+ "?" +:+ q ∈ (urljoin w base <$> soup_hrefs w html) ∧
   has_allowed_extension allowed q = true).
Proof.
  intros Hq. unfold find_download_links.
  rewrite collect_links_elem, elem_of_nil.
  assert (Heq : has_allowed_extension allowed (p +:+ "?" +:+ q)
                = has_allowed_extension allowed q).
  { unfold has_allowed_extension. clear -Hq.
    induction allowed as [|ext rest IH]; simpl; [done |].
    simpl in Hq. apply andb_true_iff in Hq as [Hext Hrest].
    rewrite IH by done. f_equal.
    apply negb_true_iff in Hext.
    rewrite !lower_app.
    destruct (endswith (lower q) ext) eqn:E.
    - change (lower "?") with "?".
      rewrite <- app_assoc_s. by apply endswith_app_l.
    - apply not_true_is_false. intros Hc.
      change (lower "?" +:+ lower q) with (String "?" (lower q)) in Hc.
      apply endswith_after_char in Hc; congruence. }
  rewrite Heq. tauto.
Qed.

Lemma link_with_query_is_matched_on_its_query_witness :
  forallb (λ ext, negb (contains_char "?" ext)) [".pdf"] = true ∧
  "https://example.com/c.pdf" +:+ "?" +:+ "v=2"
    ∉ find_download_links Demo.offline Demo.page_query
                          "https://example.com/" [".pdf"].
Proof.
  split; [reflexivity |].
  intros Hin.
  apply (link_with_query_is_matched_on_its_query Demo.offline
           Demo.page_query "https://example.com/" [".pdf"]
           "https://example.com/c.pdf" "v=2" eq_refl) in Hin.
  destruct Hin as [_ Hq]. vm_compute in Hq. discriminate Hq.
Defined.

(** C3, the claim as written fails twice over: a link whose path ends
    with [.pdf] and which carries a query string is retained when the
    query string ends with [.pdf]; and a link whose path does not end
    with any allowed suffix is retained for the same reason. *)
Lemma query_string_can_carry_the_suffix :
  let allowed := [".pdf"] in
  let links := find_download_links Demo.offline Demo.page_query
                                   "https://example.com/" allowed in
  let with_ext := "https://example.com/a.pdf" +:+ "?" +:+ "mirror=b.pdf" in
  let without_ext := "https://example.com/get?file=report.pdf" in
  (urlparse_path Demo.offline with_ext = "/a.pdf" ∧
   allowed_ignoring_case allowed (urlparse_path Demo.offline with_ext) = true ∧
   with_ext ∈ links) ∧
  (urlparse_path Demo.offline without_ext = "/get" ∧
   allowed_ignoring_case allowed (urlparse_path Demo.offline without_ext)
     = false ∧
   without_ext ∈ links).
Proof.
  cbv zeta. rewrite extract_query_links.
  repeat split; try reflexivity.
  - apply elem_of_cons. by left.
  - apply elem_of_cons. right. apply elem_of_cons. by left.
Qed.

End ExtensionFilter.

(** ** HistoryStore *)

Section HistoryStore.

Lemma set_of_items_scalars (items : list json) :
  forallb is_scalar items = true → ∃ h, set_of_items items = inr h.
Proof.
  induction items as [|v rest IH]; simpl; intros H.
  - by eexists.
  - apply andb_true_iff in H as [Hv Hrest].
    destruct (IH Hrest) as [h ->].
    destruct v; simpl in *; try discriminate; by eexists.
Qed.

Lemma set_of_items_unhashable (items : list json) :
  forallb is_scalar items = false → set_of_items items = inl TypeError.
Proof.
  induction items as [|v rest IH]; simpl; intros H; [discriminate |].
  apply andb_false_iff in H as [Hv | Hrest].
  - destruct v; simpl in *; try discriminate; done.
  - rewrite (IH Hrest). destruct (hashable v) as [e | k] eqn:E; [|done].
    destruct v; simpl in E; congruence.
Qed.

Lemma py_set_iterable (v : json) :
  iterable_of_hashables v = true → ∃ h, py_set v = inr h.
Proof.
  destruct v; simpl; try discriminate; try (intros _; by eexists).
  apply set_of_items_scalars.
Qed.

Lemma py_set_type_error (v : json) :
  iterable_of_hashables v = false → py_set v = inl TypeError.
Proof.
  destruct v; simpl; try discriminate; try done.
  apply set_of_items_unhashable.
Qed.

Example load_history_of_urls :
  load_download_history
    (State ∅ (HistJson (JArr [JStr "https://example.com/a.pdf"])) [])
  = Done ({[KStr "https://example.com/a.pdf"]} ∪ ∅)
         (State ∅ (HistJson (JArr [JStr "https://example.com/a.pdf"]))
                [MsgHistoryLoaded]).
Proof. reflexivity. Qed.

(** C8.  Loading the download history never raises: from every state it
    returns a set and leaves the files and the history file as they
    were.  An absent file gives the empty set silently; a file that is
    not valid JSON gives the empty set and the corruption warning. *)
Theorem load_download_history_never_raises (s : state) :
  ∃ h s',
    load_download_history s = Done h s' ∧
    fs s' = fs s ∧ hfile s' = hfile s ∧
    (hfile s = HistAbsent → h = ∅ ∧ trace s' = trace s) ∧
    (hfile s = HistNotJson →
     h = ∅ ∧ trace s' = trace s ++ [WarnHistoryCorrupt]) ∧
    (hfile s = HistUnreadable →
     h = ∅ ∧ trace s' = trace s ++ [WarnHistoryLoadError OSError]).
Proof.
  destruct s as [files hf tr].
  unfold load_download_history, bind, get_hfile, try_except. simpl.
  destruct hf as [| | |v]; simpl.
  - eexists _, _. split; [reflexivity |]. simpl. repeat split; congruence.
  - eexists _, _. split; [reflexivity |]. simpl. repeat split; congruence.
  - eexists _, _. split; [reflexivity |]. simpl. repeat split; congruence.
  - unfold lift_exn. destruct (py_set v) as [e | h]; simpl.
    + destruct e; eexists _, _; (split; [reflexivity |]); simpl;
        repeat split; congruence.
    + eexists _, _. split; [reflexivity |]. simpl. repeat split; congruence.
Qed.

(** C10 (as amended).  A history file holding valid JSON is never
    reported as corrupt.  When the decoded value is a string, an object
    or an array of scalars, the history is the set [set(...)] builds by
    iterating it, with no warning and no fallback; a string loads as
    the set of its one-character strings.  When it is a number, a
    boolean, [null], or an array with a nested array or object, [set]
    raises [TypeError], which the generic handler turns into a load
    warning and the empty set. *)
Theorem valid_json_history_loads_by_iteration
    (files : gmap string string) (tr : list event) (v : json) :
  (iterable_of_hashables v = true →
   ∃ h, py_set v = inr h ∧
        load_download_history (State files (HistJson v) tr)
        = Done h (State files (HistJson v) (tr ++ [MsgHistoryLoaded]))) ∧
  (iterable_of_hashables v = false →
   load_download_history (State files (HistJson v) tr)
   = Done ∅ (State files (HistJson v)
                   ((tr ++ [MsgHistoryLoaded])
                      ++ [WarnHistoryLoadError TypeError]))) ∧
  (∀ str, v = JStr str →
   load_download_history (State files (HistJson v) tr)
   = Done (list_to_set (KStr <$> PyStr.chars str))
          (State files (HistJson v) (tr ++ [MsgHistoryLoaded]))).
Proof.
  split; [| split].
  - intros Hit. destruct (py_set_iterable v Hit) as [h Hh].
    exists h. split; [done |].
    unfold load_download_history, bind, get_hfile, try_except, lift_exn.
    simpl. by rewrite Hh.
  - intros Hit. pose proof (py_set_type_error v Hit) as Hh.
    unfold load_download_history, bind, get_hfile, try_except, lift_exn.
    simpl. by rewrite Hh.
  - intros str ->. reflexivity.
Qed.

(** C10, the claim as written fails: a history file holding the JSON
    number [5] is valid JSON of the wrong shape, yet no set is built
    from it; the load falls back to the empty set with a warning.  An
    array holding an array behaves the same. *)
Lemma json_number_history_falls_back :
  load_download_history (State ∅ (HistJson (JNum 5)) [])
  = Done ∅ (State ∅ (HistJson (JNum 5))
                  [MsgHistoryLoaded; WarnHistoryLoadError TypeError]) ∧
  load_download_history (State ∅ (HistJson (JArr [JArr [JStr "u"]])) [])
  = Done ∅ (State ∅ (HistJson (JArr [JArr [JStr "u"]]))
                  [MsgHistoryLoaded; WarnHistoryLoadError TypeError]).
Proof. split; reflexivity. Qed.

Example json_string_history_loads_as_characters :
  ∃ s', load_download_history (State ∅ (HistJson (JStr "ab")) [])
        = Done (list_to_set [KStr "a"; KStr "b"]) s' ∧
        trace s' = [MsgHistoryLoaded].
Proof. eexists. split; reflexivity. Qed.

End HistoryStore.

(** ** The collision loop of [organize_file] *)

Section CollisionLoop.
Import PyStr.
Local Arguments String.append _ _ : simpl nomatch.

Lemma numbered_name_starts (stem ext : string) (i j : nat) :
  startswith_char (numbered_name stem ext i) "/"
  = startswith_char (numbered_name stem ext j) "/".
Proof. unfold numbered_name. by destruct stem. Qed.

Lemma numbered_name_inj (stem ext : string) (i j : nat) :
  numbered_name stem ext i = numbered_name stem ext j → i = j.
Proof.
  unfold numbered_name. intros H.
  apply app_inv_head_s in H.
  change ("(" +:+ ?x) with (String "(" x) in H.
  injection H as H.
  apply (app_inv_tail_s _ _ (")" +:+ ext)) in H.
  by apply (inj pretty) in H.
Qed.

Lemma join_numbered_name_inj (dir stem ext : string) (i j : nat) :
  OsPath.join dir (numbered_name stem ext i)
  = OsPath.join dir (numbered_name stem ext j) → i = j.
Proof.
  unfold OsPath.join.
  rewrite (numbered_name_starts stem ext i j).
  destruct (startswith_char (numbered_name stem ext j) "/").
  - apply numbered_name_inj.
  - destruct (bool_decide (dir = "") || endswith dir "/").
    + intros H%app_inv_head_s. by apply numbered_name_inj in H.
    + intros H%app_inv_head_s%app_inv_head_s.
      by apply numbered_name_inj in H.
Qed.

Lemma collision_loop_free (fuel : nat) (files : gmap string string)
    (dir stem ext : string) (counter : nat) (p : string) :
  path_exists files p = false →
  collision_loop fuel files dir stem ext counter p = Some p.
Proof. intros Hfree. destruct fuel; simpl; by rewrite Hfree. Qed.

(** When the budget runs out, every name tried was taken: the starting
    path and the [fuel] numbered names from [counter] on. *)
Lemma collision_loop_none (fuel : nat) (files : gmap string string)
    (dir stem ext : string) (counter : nat) (p : string) :
  collision_loop fuel files dir stem ext counter p = None →
  ∀ j, counter ≤ j < counter + fuel →
       path_exists files (OsPath.join dir (numbered_name stem ext j)) = true.
Proof.
  revert counter p. induction fuel as [|fuel IH]; intros counter p; simpl.
  - intros _ j Hj. lia.
  - destruct (path_exists files p) eqn:Hp; [|discriminate].
    intros Hloop j Hj.
    destruct (decide (j = counter)) as [-> | Hne].
    + destruct fuel as [|fuel']; simpl in Hloop.
      * by destruct (path_exists files
                       (OsPath.join dir (numbered_name stem ext counter))).
      * by destruct (path_exists files
                       (OsPath.join dir (numbered_name stem ext counter))).
    + apply (IH _ _ Hloop). lia.
Qed.

(** Pigeonhole: [fuel] distinct taken names need [fuel] files. *)
Lemma taken_names_bounded (files : gmap string string)
    (dir stem ext : string) (counter fuel : nat) :
  (∀ j, counter ≤ j < counter + fuel →
        path_exists files (OsPath.join dir (numbered_name stem ext j)) = true) →
  (fuel ≤ size files)%nat.
Proof.
  intros Htaken.
  set (cand := λ j, OsPath.join dir (numbered_name stem ext j)).
  set (names := cand <$> seq counter fuel).
  assert (Hnd : NoDup names).
  { apply NoDup_fmap_2_strong; [| apply NoDup_seq].
    intros i j _ _. apply join_numbered_name_inj. }
  assert (Hsub : (list_to_set names : gset string) ⊆ dom files).
  { intros x [j [-> Hj]]%elem_of_list_to_set%list_elem_of_fmap.
    apply elem_of_seq in Hj. apply elem_of_dom.
    specialize (Htaken j Hj). unfold path_exists in Htaken.
    by apply bool_decide_eq_true in Htaken. }
  apply subseteq_size in Hsub.
  rewrite size_list_to_set in Hsub by done.
  rewrite size_dom in Hsub.
  unfold names in Hsub. by rewrite length_fmap, length_seq in Hsub.
Qed.

(** The loop ends within [size files + 1] rounds, on a free path. *)
Lemma collision_loop_terminates (files : gmap string string)
    (dir stem ext : string) (counter : nat) (p : string) :
  ∃ final,
    collision_loop (S (size files)) files dir stem ext counter p
    = Some final ∧
    path_exists files final = false.
Proof.
  destruct (collision_loop (S (size files)) files dir stem ext counter p)
    as [final|] eqn:Hloop.
  - exists final. split; [done |].
    clear -Hloop. revert counter p Hloop.
    generalize (S (size files)) as fuel.
    induction fuel as [|fuel IH]; intros counter p; simpl.
    + destruct (path_exists files p) eqn:Hp; [discriminate |].
      by intros [= <-].
    + destruct (path_exists files p) eqn:Hp; [apply IH |].
      by intros [= <-].
  - pose proof (collision_loop_none _ _ _ _ _ _ _ Hloop) as Htaken.
    apply taken_names_bounded in Htaken. lia.
Qed.

(** What the loop returns: the starting path when it is free, otherwise
    the first free numbered name from [counter] on. *)
Lemma collision_loop_result (fuel : nat) (files : gmap string string)
    (dir stem ext : string) (counter : nat) (p final : string) :
  collision_loop fuel files dir stem ext counter p = Some final →
  (path_exists files p = false ∧ final = p) ∨
  (path_exists files p = true ∧
   ∃ k, (counter ≤ k)%nat ∧
        final = OsPath.join dir (numbered_name stem ext k) ∧
        path_exists files final = false ∧
        ∀ j, counter ≤ j < k →
             path_exists files
               (OsPath.join dir (numbered_name stem ext j)) = true).
Proof.
  revert counter p. induction fuel as [|fuel IH]; intros counter p; simpl.
  - destruct (path_exists files p) eqn:Hp; [discriminate |].
    intros [= <-]. by left.
  - destruct (path_exists files p) eqn:Hp.
    + intros Hloop. right. split; [done |].
      apply IH in Hloop as [[Hfree ->] | [Htaken (k & Hk & -> & Hfree & Hall)]].
      * exists counter. split; [lia |]. split; [done |]. split; [done |].
        intros j Hj. lia.
      * exists k. split; [lia |]. split; [done |]. split; [done |].
        intros j Hj. destruct (decide (j = counter)) as [-> | Hne]; [done |].
        apply Hall. lia.
    + intros [= <-]. by left.
Qed.

End CollisionLoop.

(** ** Rules for [wp] *)

Section WpRules.
Context {A B : Type}.

Lemma wp_bind (m : M A) (k : A → M B) (s : state)
    (Q : B → state → Prop) (E : exn → state → Prop) :
  wp m s (λ a s', wp (k a) s' Q E) E → wp (bind m k) s Q E.
Proof. unfold wp, bind. by destruct (m s). Qed.

Lemma wp_mono (m : M A) (s : state)
    (Q Q' : A → state → Prop) (E E' : exn → state → Prop) :
  wp m s Q E →
  (∀ a s', Q a s' → Q' a s') → (∀ e s', E e s' → E' e s') →
  wp m s Q' E'.
Proof. unfold wp. destruct (m s); auto. Qed.

Lemma wp_ret (a : A) (s : state)
    (Q : A → state → Prop) (E : exn → state → Prop) :
  Q a s → wp (ret a) s Q E.
Proof. done. Qed.

Lemma wp_done (m : M A) (s : state)
    (Q : A → state → Prop) (E : exn → state → Prop) (a : A) (s' : state) :
  wp m s Q E → m s = Done a s' → Q a s'.
Proof. unfold wp. intros H Heq. by rewrite Heq in H. Qed.

Lemma wp_uncaught (m : M A) (s : state)
    (Q : A → state → Prop) (E : exn → state → Prop) (e : exn) (s' : state) :
  wp m s Q E → m s = Uncaught e s' → E e s'.
Proof. unfold wp. intros H Heq. by rewrite Heq in H. Qed.

End WpRules.


(** ** Fetcher *)

Section Fetcher.
Variable w : world.

Example download_without_filename :
  download_file Demo.online "https://example.com" "downloads" Demo.fresh
  = Done None (State ∅ HistAbsent [MsgNoFilename "https://example.com"]).
Proof. reflexivity. Qed.

Example download_already_staged :
  download_file Demo.online "https://example.com/a.txt" "downloads"
                Demo.staged_twice
  = Done (Some "downloads/a.txt")
         (State (fs Demo.staged_twice) HistAbsent [MsgAlreadyLocal "a.txt"]).
Proof. reflexivity. Qed.

(** [download_file], case by case. *)
Lemma download_file_eq (file_url folder : string) (s : state) :
  download_file w file_url folder s =
  let file_name := OsPath.basename (urlparse_path w file_url) in
  let file_path := OsPath.join folder file_name in
  let log evs := State (fs s) (hfile s) (trace s ++ evs) in
  if bool_decide (file_name = "") then
    Done None (log [MsgNoFilename file_url])
  else if makedirs_ok w folder then
    if path_exists (fs s) file_path then
      Done (Some file_path) (log [MsgAlreadyLocal file_name])
    else
      match requests_get_file w file_url with
      | StreamError e =>
          Done None
               (State (fs s) (hfile s)
                      ((trace s ++ [NetGetFile file_url])
                         ++ [MsgDownloadError file_url e]))
      | StreamBroken written e =>
          Done None
               (State (<[file_path := written]> (fs s)) (hfile s)
                      ((trace s ++ [NetGetFile file_url])
                         ++ [MsgDownloadError file_url e]))
      | StreamBody body =>
          Done (Some file_path)
               (State (<[file_path := body]> (fs s)) (hfile s)
                      ((trace s ++ [NetGetFile file_url])
                         ++ [MsgDownloaded file_path]))
      end
  else Uncaught OSError s.
Proof.
  unfold download_file. cbv zeta.
  case_bool_decide; [done |].
  unfold bind at 1, makedirs.
  destruct (makedirs_ok w folder); [| done]. simpl.
  unfold bind at 1, get_fs. simpl.
  destruct (path_exists (fs s) _); [done |].
  by destruct (requests_get_file w file_url).
Qed.

(** C5.  [download_file] issues a network request only when the URL's
    path yields a file name and no file of that name is staged.  With
    no file name it returns [None] and requests nothing; with a
    same-named staged file it requests nothing and, the staging
    directory being in place, returns that file's path. *)
Theorem download_file_requests_only_when_needed
    (file_url folder : string) (s : state) :
  let file_name := OsPath.basename (urlparse_path w file_url) in
  let file_path := OsPath.join folder file_name in
  ∃ evs,
    trace <$> final_state (download_file w file_url folder s)
      = Some (trace s ++ evs) ∧
    (file_name = "" →
     existsb is_request evs = false ∧
     download_file w file_url folder s
     = Done None (State (fs s) (hfile s) (trace s ++ evs))) ∧
    (file_name ≠ "" → path_exists (fs s) file_path = true →
     existsb is_request evs = false ∧
     (makedirs_ok w folder = true →
      download_file w file_url folder s
      = Done (Some file_path) (State (fs s) (hfile s) (trace s ++ evs)))) ∧
    (existsb is_request evs = true →
     file_name ≠ "" ∧ path_exists (fs s) file_path = false ∧
     ∃ rest, evs = NetGetFile file_url :: rest).
Proof.
  intros file_name file_path.
  rewrite download_file_eq. cbv zeta. fold file_name. fold file_path.
  case_bool_decide as Hname.
  - exists [MsgNoFilename file_url]. simpl.
    repeat split; try done; discriminate.
  - destruct (makedirs_ok w folder) eqn:Hmk.
    + destruct (path_exists (fs s) file_path) eqn:Hex.
      * exists [MsgAlreadyLocal file_name]. simpl.
        repeat split; try done; discriminate.
      * destruct (requests_get_file w file_url) as [e | written e | body].
        -- exists [NetGetFile file_url; MsgDownloadError file_url e].
           simpl. rewrite <- app_assoc. simpl.
           repeat split; try done; try congruence. by eexists.
        -- exists [NetGetFile file_url; MsgDownloadError file_url e].
           simpl. rewrite <- app_assoc. simpl.
           repeat split; try done; try congruence. by eexists.
        -- exists [NetGetFile file_url; MsgDownloaded file_path].
           simpl. rewrite <- app_assoc. simpl.
           repeat split; try done; try congruence. by eexists.
    + exists []. simpl. rewrite app_nil_r.
      repeat split; try done; try congruence.
Qed.

(** [download_file] leaves the history file alone, and can only end
    abnormally when the staging directory cannot be created. *)
Lemma download_file_wp (file_url folder : string) (s : state) :
  wp (download_file w file_url folder) s
     (λ _ s', hfile s' = hfile s)
     (λ e s', s' = s ∧ makedirs_ok w folder = false).
Proof.
  unfold wp. rewrite download_file_eq. cbv zeta.
  case_bool_decide; [done |].
  destruct (makedirs_ok w folder); [| done].
  destruct (path_exists (fs s) _); [done |].
  by destruct (requests_get_file w file_url).
Qed.

End Fetcher.

(** ** OrganizationPolicy *)

Section OrganizationPolicy.
Variable w : world.
Local Opaque collision_loop.

(** [organize_file], case by case. *)
Lemma organize_file_eq (file_path base rule : string) (s : state) :
  organize_file w file_path base rule s =
  let log evs := State (fs s) (hfile s) (trace s ++ evs) in
  if bool_decide (file_path = "") || negb (path_exists (fs s) file_path)
  then Done None (log [WarnNotFound file_path])
  else
    match destination_dir w base rule file_path with
    | None => Done None (log [MsgUnknownRule rule])
    | Some dir =>
        if makedirs_ok w dir then
          match collision_loop (S (size (fs s))) (fs s) dir
                  (OsPath.splitext (OsPath.basename file_path)).1
                  (OsPath.splitext (OsPath.basename file_path)).2 1
                  (OsPath.join dir (OsPath.basename file_path))
          with
          | None => OutOfFuel
          | Some final =>
              if move_ok w file_path final then
                Done (Some final)
                     (State (<[final := default "" (fs s !! file_path)]>
                               (delete file_path (fs s)))
                            (hfile s)
                            (trace s ++ [MsgMoved file_path final]))
              else
                match move_leftover w file_path final with
                | Some copied =>
                    Done None
                         (State (<[final := copied]> (fs s)) (hfile s)
                                (trace s ++ [MsgMoveError file_path final]))
                | None => Done None (log [MsgMoveError file_path final])
                end
          end
        else Uncaught OSError s
    end.
Proof.
  unfold organize_file, destination_dir, file_extension_of. cbv zeta.
  unfold bind at 1, get_fs. simpl.
  destruct (bool_decide (file_path = "") || negb (path_exists (fs s) file_path));
    [done |].
  destruct (rule_subfolders w rule _) as [[sub1 sub2]|]; [| done].
  unfold bind at 1, makedirs.
  destruct (makedirs_ok w _); [| done]. simpl.
  destruct (OsPath.splitext (OsPath.basename file_path)) as [stem ext]. simpl.
  destruct (collision_loop _ _ _ _ _ _ _) as [final|]; [| done].
  destruct (move_ok w file_path final); [done |].
  by destruct (move_leftover w file_path final).
Qed.

Lemma rule_subfolders_unknown (rule ext : string) :
  rule ≠ "date" → rule ≠ "type" → rule ≠ "type_then_date" →
  rule_subfolders w rule ext = None.
Proof.
  intros. unfold rule_subfolders.
  by rewrite !bool_decide_eq_false_2.
Qed.

Lemma rule_subfolders_known (rule ext : string) :
  is_Some (rule_subfolders w rule ext) ↔
  rule = "date" ∨ rule = "type" ∨ rule = "type_then_date".
Proof.
  unfold rule_subfolders.
  repeat case_bool_decide; split; intros Hk; eauto.
  - by destruct Hk.
  - by destruct Hk as [? | [? | ?]].
Qed.

(** [organize_file] leaves the history file alone, never exhausts the
    budget of its loop, and can only end abnormally when the
    destination directory cannot be created. *)
Lemma organize_file_wp (file_path base rule : string) (s : state) :
  wp (organize_file w file_path base rule) s
     (λ _ s', hfile s' = hfile s)
     (λ e s', s' = s ∧ ∃ d, makedirs_ok w d = false).
Proof.
  unfold wp. rewrite organize_file_eq. cbv zeta.
  destruct (_ || _); [done |].
  destruct (destination_dir w base rule file_path) as [dir|]; [| done].
  destruct (makedirs_ok w dir) eqn:Hmk; [| by eauto].
  destruct (collision_loop_terminates (fs s) dir
              (OsPath.splitext (OsPath.basename file_path)).1
              (OsPath.splitext (OsPath.basename file_path)).2 1
              (OsPath.join dir (OsPath.basename file_path)))
    as (final & -> & _).
  destruct (move_ok w file_path final); [done |].
  by destruct (move_leftover w file_path final).
Qed.

(** C7.  For every rule other than [date], [type] and
    [type_then_date], [organize_file] returns [None] and relocates
    nothing: the download tree is as before, so the staged file is
    still where it was; when the staged file exists, the failure
    reported is the unknown-rule one. *)
Theorem organize_file_unknown_rule_moves_nothing
    (file_path base rule : string) (s : state) :
  rule ≠ "date" → rule ≠ "type" → rule ≠ "type_then_date" →
  ∃ evs,
    organize_file w file_path base rule s
    = Done None (State (fs s) (hfile s) (trace s ++ evs)) ∧
    (file_path ≠ "" → is_Some (fs s !! file_path) →
     evs = [MsgUnknownRule rule]).
Proof.
  intros H1 H2 H3. rewrite organize_file_eq. cbv zeta.
  unfold destination_dir. rewrite rule_subfolders_unknown by done.
  destruct (bool_decide (file_path = "") || negb (path_exists (fs s) file_path))
    eqn:Hguard.
  - eexists. split; [done |]. intros Hne Hsome.
    apply orb_true_iff in Hguard as [Hempty | Hmissing].
    + by apply bool_decide_eq_true in Hempty.
    + apply negb_true_iff in Hmissing. unfold path_exists in Hmissing.
      by apply bool_decide_eq_false in Hmissing.
  - by eexists.
Qed.

(** C4.  When the destination already holds a file of the same name,
    [organize_file] moves the staged file to the first free name among
    [stem(1)ext], [stem(2)ext], ...: [stem] and [ext] are the two halves
    [os.path.splitext] cuts the file name into, so [stem] followed by
    [ext] is the file name and [ext] is empty or the last dot with what
    follows it; the number is written in decimal between parentheses,
    right after [stem] and right before [ext].  Every lower-numbered
    name is taken, the chosen one is free, and the staged content ends
    up under it while the staged path disappears. *)
Theorem organize_file_numbers_colliding_names
    (file_path base rule dir content : string) (s : state) :
  file_path ≠ "" →
  fs s !! file_path = Some content →
  destination_dir w base rule file_path = Some dir →
  makedirs_ok w dir = true →
  (∀ dst, move_ok w file_path dst = true) →
  path_exists (fs s) (OsPath.join dir (OsPath.basename file_path)) = true →
  ∃ (stem ext : string) (k : nat),
    OsPath.splitext (OsPath.basename file_path) = (stem, ext) ∧
    stem +:+ ext = OsPath.basename file_path ∧
    (ext = "" ∨ ∃ e, ext = "." +:+ e ∧ contains_char "." e = false) ∧
    (1 ≤ k)%nat ∧
    (∀ j, (1 ≤ j < k)%nat →
          path_exists (fs s)
            (OsPath.join dir (stem +:+ "(" +:+ pretty j +:+ ")" +:+ ext))
          = true) ∧
    path_exists (fs s)
      (OsPath.join dir (stem +:+ "(" +:+ pretty k +:+ ")" +:+ ext))
    = false ∧
    organize_file w file_path base rule s
    = Done (Some (OsPath.join dir
                    (stem +:+ "(" +:+ pretty k +:+ ")" +:+ ext)))
           (State (<[OsPath.join dir
                       (stem +:+ "(" +:+ pretty k +:+ ")" +:+ ext)
                     := content]>
                     (delete file_path (fs s)))
                  (hfile s)
                  (trace s
                     ++ [MsgMoved file_path
                           (OsPath.join dir
                              (stem +:+ "(" +:+ pretty k +:+ ")" +:+ ext))])).
Proof.
  intros Hne Hfile Hdir Hmk Hmv Htaken.
  pose proof (splitext_app (OsPath.basename file_path)) as Happ.
  pose proof (splitext_ext_shape (OsPath.basename file_path)) as Hshape.
  rewrite organize_file_eq. cbv zeta.
  rewrite Hdir, Hmk.
  assert (Hex : path_exists (fs s) file_path = true).
  { unfold path_exists. apply bool_decide_eq_true. by eexists. }
  rewrite Hex, (bool_decide_eq_false_2 (file_path = "")) by done. simpl.
  destruct (OsPath.splitext (OsPath.basename file_path)) as [stem ext].
  simpl in *.
  destruct (collision_loop_terminates (fs s) dir stem ext 1
              (OsPath.join dir (OsPath.basename file_path)))
    as (final & Hloop & Hfree).
  rewrite Hloop, Hmv, Hfile. simpl.
  apply collision_loop_result in Hloop
    as [[Hno _] | [_ (k & Hk & -> & Hfree' & Hall)]]; [congruence |].
  unfold numbered_name in *.
  exists stem, ext, k. by repeat split.
Qed.

(** Without a collision the file keeps its name. *)
Lemma organize_file_keeps_free_name
    (file_path base rule dir content : string) (s : state) :
  file_path ≠ "" →
  fs s !! file_path = Some content →
  destination_dir w base rule file_path = Some dir →
  makedirs_ok w dir = true →
  (∀ dst, move_ok w file_path dst = true) →
  path_exists (fs s) (OsPath.join dir (OsPath.basename file_path)) = false →
  organize_file w file_path base rule s
  = Done (Some (OsPath.join dir (OsPath.basename file_path)))
         (State (<[OsPath.join dir (OsPath.basename file_path) := content]>
                   (delete file_path (fs s)))
                (hfile s)
                (trace s
                   ++ [MsgMoved file_path
                         (OsPath.join dir (OsPath.basename file_path))])).
Proof.
  intros Hne Hfile Hdir Hmk Hmv Hfree.
  rewrite organize_file_eq. cbv zeta.
  rewrite Hdir, Hmk.
  assert (Hex : path_exists (fs s) file_path = true).
  { unfold path_exists. apply bool_decide_eq_true. by eexists. }
  rewrite Hex, (bool_decide_eq_false_2 (file_path = "")) by done. simpl.
  rewrite collision_loop_free by done.
  by rewrite Hmv, Hfile.
Qed.

End OrganizationPolicy.

(** ** Organizing in the example world *)

Example organize_by_type_then_date :
  destination_dir Demo.online "downloads" "type_then_date"
                  "downloads/data.csv"
  = Some "downloads/Csv/2024-05-01".
Proof. reflexivity. Qed.

(** Two different files named [a.txt], organized one after the other
    into the same destination, end up as [a.txt] and [a(1).txt]. *)
Example organize_two_files_named_a_txt :
  ∃ s1 s2,
    organize_file Demo.online "downloads/a.txt" "downloads" "type"
                  (State {["downloads/a.txt" := "first"]} HistAbsent [])
    = Done (Some "downloads/Txt/a.txt") s1 ∧
    organize_file Demo.online "downloads/a.txt" "downloads" "type"
                  (State (<["downloads/a.txt" := "second"]> (fs s1))
                         HistAbsent [])
    = Done (Some "downloads/Txt/a(1).txt") s2 ∧
    fs s2 !! "downloads/Txt/a.txt" = Some "first" ∧
    fs s2 !! "downloads/Txt/a(1).txt" = Some "second" ∧
    fs s2 !! "downloads/a.txt" = None.
Proof.
  eexists _, _. split; [vm_compute; reflexivity |]. split; [vm_compute; reflexivity |].
  vm_compute; repeat split; reflexivity.
Qed.

(** A third [report.tar.gz] arrives when [report.tar.gz] and
    [report.tar(1).gz] are taken: it becomes [report.tar(2).gz]. *)
Example organize_third_report_tar_gz :
  ∃ s',
    organize_file Demo.online "downloads/report.tar.gz" "downloads" "type"
                  staged_over_two
    = Done (Some "downloads/Gz/report.tar(2).gz") s' ∧
    fs s' !! "downloads/Gz/report.tar.gz" = Some "first" ∧
    fs s' !! "downloads/Gz/report.tar(1).gz" = Some "second" ∧
    fs s' !! "downloads/Gz/report.tar(2).gz" = Some "third" ∧
    fs s' !! "downloads/report.tar.gz" = None.
Proof.
  eexists. split; [vm_compute; reflexivity |].
  vm_compute; repeat split; reflexivity.
Qed.

Lemma organize_file_numbers_colliding_names_witness :
  path_exists (fs staged_over_two) "downloads/Gz/report.tar.gz" = true ∧
  ∃ (stem ext : string) (k : nat),
    OsPath.splitext (OsPath.basename "downloads/report.tar.gz")
    = (stem, ext) ∧
    stem +:+ ext = OsPath.basename "downloads/report.tar.gz" ∧
    (ext = "" ∨ ∃ e, ext = "." +:+ e ∧ contains_char "." e = false) ∧
    (1 ≤ k)%nat ∧
    (∀ j, (1 ≤ j < k)%nat →
          path_exists (fs staged_over_two)
            (OsPath.join "downloads/Gz"
               (stem +:+ "(" +:+ pretty j +:+ ")" +:+ ext))
          = true) ∧
    path_exists (fs staged_over_two)
      (OsPath.join "downloads/Gz"
         (stem +:+ "(" +:+ pretty k +:+ ")" +:+ ext))
    = false ∧
    organize_file Demo.online "downloads/report.tar.gz" "downloads" "type"
                  staged_over_two
    = Done (Some (OsPath.join "downloads/Gz"
                    (stem +:+ "(" +:+ pretty k +:+ ")" +:+ ext)))
           (State (<[OsPath.join "downloads/Gz"
                       (stem +:+ "(" +:+ pretty k +:+ ")" +:+ ext)
                     := "third"]>
                     (delete "downloads/report.tar.gz" (fs staged_over_two)))
                  (hfile staged_over_two)
                  (trace staged_over_two
                     ++ [MsgMoved "downloads/report.tar.gz"
                           (OsPath.join "downloads/Gz"
                              (stem +:+ "(" +:+ pretty k +:+ ")" +:+ ext))])).
Proof.
  split; [vm_compute; reflexivity |].
  apply (organize_file_numbers_colliding_names Demo.online
           "downloads/report.tar.gz" "downloads" "type" "downloads/Gz"
           "third" staged_over_two).
  - discriminate.
  - vm_compute; reflexivity.
  - vm_compute; reflexivity.
  - reflexivity.
  - intros dst. reflexivity.
  - vm_compute; reflexivity.
Defined.

Lemma organize_file_unknown_rule_moves_nothing_witness :
  "size" ≠ "date" ∧ "size" ≠ "type" ∧ "size" ≠ "type_then_date" ∧
  ∃ evs,
    organize_file Demo.online "downloads/a.txt" "downloads" "size"
                  Demo.staged_twice
    = Done None (State (fs Demo.staged_twice) (hfile Demo.staged_twice)
                       (trace Demo.staged_twice ++ evs)) ∧
    ("downloads/a.txt" ≠ "" →
     is_Some (fs Demo.staged_twice !! "downloads/a.txt") →
     evs = [MsgUnknownRule "size"]).
Proof.
  split; [discriminate |]. split; [discriminate |].
  split; [discriminate |].
  apply (organize_file_unknown_rule_moves_nothing Demo.online
           "downloads/a.txt" "downloads" "size" Demo.staged_twice);
    discriminate.
Defined.


(** ** PipelineOrchestrator *)

Section Orchestrator.
Variable w : world.

Lemma process_link_wp (force : bool) (cfg : config) (link : string)
    (h : gset pykey) (s : state) :
  wp (process_link w force cfg link h) s (loop_post h s) (loop_crash w s).
Proof.
  unfold process_link, loop_post, loop_crash.
  destruct (bool_decide (KStr link ∈ h) && negb force); [done |].
  apply wp_bind.
  eapply wp_mono; [apply download_file_wp | | ].
  - intros r s1 H1. cbv beta. apply wp_bind.
    destruct (truthy r).
    + apply wp_bind. eapply wp_mono; [apply organize_file_wp | | ].
      * intros r2 s2 H2. cbv beta.
        destruct (truthy r2); unfold wp; simpl.
        -- split; [congruence | set_solver].
        -- split; [congruence | done].
      * intros e s2 [-> [d Hd]]. eauto.
    + unfold wp. simpl. split; [congruence | done].
  - intros e s1 [-> Hd]. eauto.
Qed.

Lemma process_links_wp (force : bool) (cfg : config) (links : list string)
    (h : gset pykey) (s : state) :
  wp (process_links w force cfg links h) s (loop_post h s) (loop_crash w s).
Proof.
  revert h s. induction links as [|link rest IH]; intros h s; simpl.
  - by apply wp_ret.
  - apply wp_bind.
    eapply wp_mono; [apply process_link_wp | | done].
    intros h1 s1 [Hf1 Hh1]. cbv beta.
    eapply wp_mono; [apply IH | | ].
    + intros h2 s2 [Hf2 Hh2]. split; [congruence | set_solver].
    + intros e s2 [Hf2 Hd]. split; [congruence | done].
Qed.

Lemma get_page_content_wp (url : string) (s : state) :
  wp (get_page_content w url) s
     (λ _ s', hfile s' = hfile s) (λ _ _, False).
Proof.
  unfold wp, get_page_content, bind, emit. simpl.
  by destruct (requests_get_page w url).
Qed.

Lemma process_url_wp (force : bool) (cfg : config) (url : string)
    (h : gset pykey) (s : state) :
  wp (process_url w force cfg url h) s (loop_post h s) (loop_crash w s).
Proof.
  unfold process_url.
  apply wp_bind.
  eapply wp_mono; [apply get_page_content_wp | | done].
  intros html s1 H1. cbv beta. apply wp_bind.
  destruct (truthy html).
  - destruct (find_download_links w _ url _) as [|link rest] eqn:Hlinks.
    + unfold wp, loop_post. simpl. split; [congruence | done].
    + eapply wp_mono; [apply process_links_wp | | ].
      * intros h2 s2 [Hf2 Hh2]. unfold wp, loop_post. simpl.
        split; [congruence | done].
      * intros e s2 [Hf2 Hd]. split; [congruence | done].
  - unfold wp, loop_post. simpl. split; [congruence | done].
Qed.

Lemma process_urls_wp (force : bool) (cfg : config) (urls : list string)
    (h : gset pykey) (s : state) :
  wp (process_urls w force cfg urls h) s (loop_post h s) (loop_crash w s).
Proof.
  revert h s. induction urls as [|url rest IH]; intros h s; simpl.
  - by apply wp_ret.
  - apply wp_bind.
    eapply wp_mono; [apply process_url_wp | | done].
    intros h1 s1 [Hf1 Hh1]. cbv beta.
    eapply wp_mono; [apply IH | | ].
    + intros h2 s2 [Hf2 Hh2]. split; [congruence | set_solver].
    + intros e s2 [Hf2 Hd]. split; [congruence | done].
Qed.

End Orchestrator.

Section Run.
Variable w : world.

Lemma load_download_history_wp (s : state) :
  wp load_download_history s
     (λ _ s', fs s' = fs s ∧ hfile s' = hfile s) (λ _ _, False).
Proof.
  destruct s as [files hf tr].
  unfold wp, load_download_history, bind, get_hfile, try_except. simpl.
  destruct hf as [| | |v]; simpl; try done.
  unfold lift_exn. destruct (py_set v) as [e | h]; simpl; [| done].
  by destruct e.
Qed.

(** [persist_history], case by case. *)
Lemma persist_history_eq (initial : nat) (h : gset pykey) (s : state) :
  persist_history w initial h s =
  if Nat.ltb initial (size h) then
    if history_write_ok w then
      Done tt (State (fs s)
                     (HistJson (JArr (key_json <$> elements h)))
                     ((trace s ++ [MsgNewFiles (size h - initial)])
                        ++ [MsgHistorySaved]))
    else
      Done tt (State (fs s) (hfile s)
                     ((trace s ++ [MsgNewFiles (size h - initial)])
                        ++ [MsgHistorySaveError]))
  else Done tt (State (fs s) (hfile s) (trace s ++ [MsgNoNewFiles])).
Proof.
  unfold persist_history, save_download_history.
  destruct (Nat.ltb initial (size h)); [| done].
  by destruct (history_write_ok w).
Qed.

Lemma persist_history_reached (initial : nat) (h : gset pykey) (s : state) :
  ∃ s', persist_history w initial h s = Done tt s' ∧
        reached_persistence (trace s') ∧
        ((size h ≤ initial)%nat → hfile s' = hfile s) ∧
        (hfile s' ≠ hfile s → (initial < size h)%nat).
Proof.
  rewrite persist_history_eq.
  destruct (Nat.ltb initial (size h)) eqn:Hlt.
  - apply Nat.ltb_lt in Hlt.
    destruct (history_write_ok w); eexists; (split; [done |]); simpl.
    + split; [by eexists _, _; eauto |]. split; [lia | done].
    + split; [by eexists _, _; eauto |]. split; [done | done].
  - apply Nat.ltb_ge in Hlt.
    eexists; (split; [done |]); simpl.
    split; [by eexists _, _; eauto |]. by split.
Qed.

(** What a whole run guarantees. *)
Lemma main_wp (force : bool) (cfg : config) (s : state) :
  wp (main w force cfg) s
     (λ r s',
        match r with
        | None =>
            hfile s' = hfile s ∧
            (target_urls cfg = [] ∨ allowed_extensions cfg = [])
        | Some h =>
            ∃ h0 s0,
              load_download_history s = Done h0 s0 ∧
              h0 ⊆ h ∧
              reached_persistence (trace s') ∧
              ((size h ≤ size h0)%nat → hfile s' = hfile s) ∧
              (hfile s' ≠ hfile s → (size h0 < size h)%nat)
        end)
     (loop_crash w s).
Proof.
  unfold main.
  destruct (target_urls cfg) as [|u us] eqn:Hurls; [by split; eauto |].
  destruct (allowed_extensions cfg) as [|x xs] eqn:Hexts; [by split; eauto |].
  apply wp_bind. unfold makedirs.
  destruct (makedirs_ok w (download_base_folder cfg)) eqn:Hmk;
    [| by split; eauto].
  apply wp_ret. cbv beta.
  apply wp_bind.
  pose proof (load_download_history_wp s) as Hload.
  unfold wp at 1. unfold wp in Hload.
  destruct (load_download_history s) as [h0 s0 | e s0 |] eqn:Hl; try done.
  destruct Hload as [Hfs0 Hf0].
  apply wp_bind.
  eapply wp_mono; [apply process_urls_wp | | ].
  - intros h s1 [Hf1 Hh1]. cbv beta.
    apply wp_bind.
    destruct (persist_history_reached (size h0) h s1)
      as (s2 & Hp & Hreach & Hsame & Hdiff).
    unfold wp at 1. rewrite Hp.
    apply wp_ret.
    exists h0, s0. split; [done |]. split; [done |]. split; [done |].
    split.
    + intros Hle. rewrite Hsame by done. congruence.
    + intros Hne. apply Hdiff. congruence.
  - intros e s1 [Hf1 Hd]. split; [congruence | done].
Qed.

(** A run never exhausts the budget of the collision loop. *)
Lemma main_terminates (force : bool) (cfg : config) (s : state) :
  is_Some (final_state (main w force cfg s)).
Proof.
  pose proof (main_wp force cfg s) as H. unfold wp in H.
  destruct (main w force cfg s); simpl; [by eexists | by eexists | done].
Qed.

(** When every directory can be created, a run with target pages and
    allowed extensions ends in the history persistence logic. *)
Lemma main_reaches_persistence (force : bool) (cfg : config) (s : state) :
  (∀ d, makedirs_ok w d = true) →
  target_urls cfg ≠ [] → allowed_extensions cfg ≠ [] →
  ∃ h s', main w force cfg s = Done (Some h) s' ∧
          reached_persistence (trace s').
Proof.
  intros Hmk Hurls Hexts.
  pose proof (main_wp force cfg s) as H. unfold wp in H.
  destruct (main w force cfg s) as [r s' | e s' |]; [| | done].
  - destruct r as [h|].
    + destruct H as (h0 & s0 & _ & _ & Hreach & _). by eexists _, _.
    + destruct H as [_ [? | ?]]; done.
  - destruct H as [_ [d Hd]]. rewrite Hmk in Hd. discriminate.
Qed.

End Run.

Section RunClaims.
Variable w : world.

(** C2.  Processing one link changes the in-memory history only by
    adding that link, and only when the download returned a path and
    organizing it returned a path; when the download fails, or the
    organization fails, the history is the one before. *)
Theorem history_grows_only_after_download_and_organize
    (force : bool) (cfg : config) (link : string) (h : gset pykey)
    (s : state) (h' : gset pykey) (s' : state) :
  process_link w force cfg link h s = Done h' s' →
  (h' = h ∨ h' = {[KStr link]} ∪ h) ∧
  (h' ≠ h →
   ∃ r1 s1 r2 s2,
     download_file w link (download_base_folder cfg) s = Done r1 s1 ∧
     truthy r1 = true ∧
     organize_file w (default "" r1) (download_base_folder cfg)
                   (organization_rule cfg) s1 = Done r2 s2 ∧
     truthy r2 = true) ∧
  (∀ r1 s1,
     download_file w link (download_base_folder cfg) s = Done r1 s1 →
     truthy r1 = false → h' = h) ∧
  (∀ r1 s1 r2 s2,
     download_file w link (download_base_folder cfg) s = Done r1 s1 →
     organize_file w (default "" r1) (download_base_folder cfg)
                   (organization_rule cfg) s1 = Done r2 s2 →
     truthy r2 = false → h' = h).
Proof.
  unfold process_link.
  destruct (bool_decide (KStr link ∈ h) && negb force).
  - intros [= <- <-]. repeat split; auto; done.
  - unfold bind at 1.
    destruct (download_file w link (download_base_folder cfg) s)
      as [r1 s1 | e s1 |] eqn:Hd; [| discriminate | discriminate].
    unfold bind at 1.
    destruct (truthy r1) eqn:Ht1.
    + unfold bind at 1.
      destruct (organize_file w (default "" r1) (download_base_folder cfg)
                  (organization_rule cfg) s1)
        as [r2 s2 | e s2 |] eqn:Ho; [| discriminate | discriminate].
      destruct (truthy r2) eqn:Ht2; intros [= <- <-].
      * split; [by right |]. split; [by eauto 10 |]. split.
        -- intros ? ? [= <- <-] ?. congruence.
        -- intros ? ? ? ? [= <- <-] Ho'. rewrite Ho in Ho'.
           injection Ho' as <- <-. congruence.
      * split; [by left |]. split; [done |]. split; by auto.
    + intros [= <- <-].
      split; [by left |]. split; [done |]. split; by auto.
Qed.

(** C6.  The history file is read once, at the start of the run, and a
    run that ends normally leaves it as it was unless the in-memory
    history ended with more entries than were loaded; whenever the file
    is rewritten, the final history holds an entry the loaded one did
    not. *)
Theorem history_file_rewritten_only_when_history_grew
    (force : bool) (cfg : config) (s : state)
    (r : option (gset pykey)) (s' : state) :
  main w force cfg s = Done r s' →
  match r with
  | None => hfile s' = hfile s
  | Some h =>
      ∃ h0 s0,
        load_download_history s = Done h0 s0 ∧
        h0 ⊆ h ∧
        (h = h0 → hfile s' = hfile s) ∧
        ((size h ≤ size h0)%nat → hfile s' = hfile s) ∧
        (hfile s' ≠ hfile s → ∃ k, k ∈ h ∧ k ∉ h0)
  end.
Proof.
  intros Hrun. pose proof (main_wp w force cfg s) as H.
  apply (wp_done _ _ _ _ _ _ H) in Hrun. clear H.
  destruct r as [h|]; [| by destruct Hrun].
  destruct Hrun as (h0 & s0 & Hload & Hsub & _ & Hsame & Hdiff).
  exists h0, s0. split; [done |]. split; [done |]. split; [| split].
  - intros ->. by apply Hsame.
  - done.
  - intros Hne. specialize (Hdiff Hne).
    destruct (size_pos_elem_of (h ∖ h0)) as [k Hk].
    + rewrite size_difference by done. lia.
    + exists k. set_solver.
Qed.

(** An uncaught exception leaves the history file as it was, too. *)
Lemma aborted_run_keeps_history_file
    (force : bool) (cfg : config) (s : state) (e : exn) (s' : state) :
  main w force cfg s = Uncaught e s' → hfile s' = hfile s.
Proof.
  intros Hrun. pose proof (main_wp w force cfg s) as H.
  by apply (wp_uncaught _ _ _ _ _ _ H) in Hrun as [? _].
Qed.

End RunClaims.

(** ** Runs in the example world *)

Example process_demo_link :
  process_link Demo.online false (Demo.cfg "type") demo_link ∅ Demo.fresh
  = Done ({[KStr demo_link]} ∪ ∅) demo_done.
Proof. reflexivity. Qed.

Lemma history_grows_only_after_download_and_organize_witness :
  process_link Demo.online false (Demo.cfg "type") demo_link ∅ Demo.fresh
  = Done ({[KStr demo_link]} ∪ ∅) demo_done ∧
  (({[KStr demo_link]} ∪ ∅ : gset pykey) = ∅ ∨
   ({[KStr demo_link]} ∪ ∅ : gset pykey) = {[KStr demo_link]} ∪ ∅).
Proof.
  assert (Hrun :
    process_link Demo.online false (Demo.cfg "type") demo_link ∅ Demo.fresh
    = Done ({[KStr demo_link]} ∪ ∅) demo_done) by reflexivity.
  split; [exact Hrun |].
  exact (proj1 (history_grows_only_after_download_and_organize
                  Demo.online false (Demo.cfg "type") demo_link ∅
                  Demo.fresh _ _ Hrun)).
Defined.

(** A forced run over a link already in the history downloads it again,
    records it again, and does not rewrite the history file. *)
Example forced_rerun_keeps_history_file :
  main Demo.online true (Demo.cfg "type") (State ∅ demo_history [])
  = Done (Some ({[KStr demo_link]} ∪ ({[KStr demo_link]} ∪ ∅)))
         demo_rerun_end.
Proof. reflexivity. Qed.

Lemma history_file_rewritten_only_when_history_grew_witness :
  main Demo.online true (Demo.cfg "type") (State ∅ demo_history [])
  = Done (Some ({[KStr demo_link]} ∪ ({[KStr demo_link]} ∪ ∅)))
         demo_rerun_end ∧
  ∃ h0 s0,
    load_download_history (State ∅ demo_history []) = Done h0 s0 ∧
    h0 ⊆ {[KStr demo_link]} ∪ ({[KStr demo_link]} ∪ ∅) ∧
    ({[KStr demo_link]} ∪ ({[KStr demo_link]} ∪ ∅) = h0 →
     hfile demo_rerun_end = hfile (State ∅ demo_history [])) ∧
    ((size ({[KStr demo_link]} ∪ ({[KStr demo_link]} ∪ ∅) : gset pykey)
        ≤ size h0)%nat →
     hfile demo_rerun_end = hfile (State ∅ demo_history [])) ∧
    (hfile demo_rerun_end ≠ hfile (State ∅ demo_history []) →
     ∃ k, k ∈ ({[KStr demo_link]} ∪ ({[KStr demo_link]} ∪ ∅) : gset pykey)
          ∧ k ∉ h0).
Proof.
  assert (Hrun :
    main Demo.online true (Demo.cfg "type") (State ∅ demo_history [])
    = Done (Some ({[KStr demo_link]} ∪ ({[KStr demo_link]} ∪ ∅)))
           demo_rerun_end) by reflexivity.
  split; [exact Hrun |].
  exact (history_file_rewritten_only_when_history_grew
           Demo.online true (Demo.cfg "type") _ _ _ Hrun).
Defined.

(** C9, at the failing input.  The configuration names one page and one
    extension; the page links [a.txt], which downloads fine, but the
    destination directory [downloads/Txt] cannot be created.
    [os.makedirs] raises outside every [try], [organize_file] does not
    return, and the run ends there: the history persistence logic is
    never reached. *)
Theorem run_aborts_when_destination_cannot_be_created :
  target_urls (Demo.cfg "type") ≠ [] ∧
  allowed_extensions (Demo.cfg "type") ≠ [] ∧
  main Demo.blocked false (Demo.cfg "type") Demo.fresh
  = Uncaught OSError
      (State {["downloads/a.txt" := "first"]} HistAbsent
             [NetGetPage "https://example.com/"; NetGetFile demo_link;
              MsgDownloaded "downloads/a.txt"]) ∧
  ¬ reached_persistence
      [NetGetPage "https://example.com/"; NetGetFile demo_link;
       MsgDownloaded "downloads/a.txt"].
Proof.
  split; [done |]. split; [done |]. split; [reflexivity |].
  intros (before & last_event & Heq & Hlast).
  apply (f_equal last) in Heq. rewrite last_snoc in Heq. simpl in Heq.
  injection Heq as <-.
  destruct Hlast as [? | [? | ?]]; discriminate.
Qed.

(** * Further properties *)

(** ** LinkExtractor, continued *)

Section LinkOrder.
Import PyStr.
Variable w : world.

Lemma endswith_empty (s : string) : endswith s "" = true.
Proof. apply endswith_spec. exists s. by rewrite app_empty_r_s. Qed.

Lemma filter_all (P : string → Prop) `{!∀ x, Decision (P x)}
    (l : list string) :
  (∀ x, P x) → filter P l = l.
Proof.
  intros HP. induction l as [|x l IH]; [done |].
  by rewrite filter_cons_True, IH.
Qed.

Lemma collect_links_first_occurrences (base : string)
    (allowed hrefs found : list string) :
  collect_links w base allowed hrefs found
  = found ++
    filter (λ u, u ∉ found)
      (first_occurrences
         (filter (λ u, has_allowed_extension allowed u = true)
                 (urljoin w base <$> hrefs))).
Proof.
  revert found. induction hrefs as [|href rest IH]; intros found; simpl.
  - by rewrite app_nil_r.
  - destruct (has_allowed_extension allowed (urljoin w base href)) eqn:Ha.
    + rewrite filter_cons_True by done. simpl.
      case_bool_decide as Hin.
      * rewrite filter_cons_False by auto.
        rewrite IH. f_equal.
        rewrite list_filter_filter. apply list_filter_iff.
        intros x. split; [| tauto]. intros Hx. split; [done |].
        by intros ->.
      * rewrite filter_cons_True by done.
        rewrite IH, <- app_assoc. simpl. do 2 f_equal.
        rewrite list_filter_filter. apply list_filter_iff.
        intros x. rewrite elem_of_app, list_elem_of_singleton. tauto.
    + rewrite filter_cons_False by congruence. apply IH.
Qed.

(** X1.  [find_download_links] returns the resolved links that pass the
    extension test, each once, at the place of its first appearance in
    the page. *)
Theorem extracted_links_in_order_of_first_appearance
    (html base : string) (allowed : list string) :
  find_download_links w html base allowed
  = first_occurrences
      (filter (λ u, has_allowed_extension allowed u = true)
              (urljoin w base <$> soup_hrefs w html)).
Proof.
  unfold find_download_links. rewrite collect_links_first_occurrences.
  simpl. apply filter_all. intros x. apply not_elem_of_nil.
Qed.

(** X2.  No link is reported twice for one page, however often the page
    repeats it. *)
Theorem extracted_links_are_distinct
    (html base : string) (allowed : list string) :
  NoDup (find_download_links w html base allowed).
Proof.
  unfold find_download_links. apply collect_links_NoDup. constructor.
Qed.

(** X3.  An empty string among the allowed suffixes lets every link
    through: the result then holds exactly the resolved [href]s of the
    page. *)
Theorem empty_suffix_retains_every_link
    (html base : string) (allowed : list string) (u : string) :
  "" ∈ allowed →
  (u ∈ find_download_links w html base allowed ↔
   u ∈ (urljoin w base <$> soup_hrefs w html)).
Proof.
  intros Hempty. unfold find_download_links.
  rewrite collect_links_elem, elem_of_nil.
  assert (Hpass : has_allowed_extension allowed u = true).
  { unfold has_allowed_extension. apply existsb_exists. exists "".
    split; [by apply list_elem_of_In | apply endswith_empty]. }
  tauto.
Qed.

End LinkOrder.

Lemma empty_suffix_retains_every_link_witness :
  "" ∈ [".pdf"; ""] ∧
  ("https://example.com/c.pdf?v=2"
     ∈ find_download_links Demo.offline Demo.page_query
                           "https://example.com/" [".pdf"; ""] ↔
   "https://example.com/c.pdf?v=2"
     ∈ (urljoin Demo.offline "https://example.com/"
          <$> soup_hrefs Demo.offline Demo.page_query)).
Proof.
  assert (Hin : "" ∈ [".pdf"; ""]).
  { apply elem_of_cons. right. apply elem_of_cons. by left. }
  split; [exact Hin |].
  exact (empty_suffix_retains_every_link Demo.offline Demo.page_query
           "https://example.com/" [".pdf"; ""]
           "https://example.com/c.pdf?v=2" Hin).
Defined.

(** ** Paths *)

Section PathFacts.
Import PyStr.
Local Arguments String.append _ _ : simpl nomatch.

Lemma split_last_app (sep : ascii) (a b : string) :
  contains_char sep b = false →
  split_last sep (a +:+ String sep b) = Some (a, b).
Proof.
  intros Hb. induction a as [|c a IH]; simpl.
  - apply split_last_none in Hb. rewrite Hb.
    by rewrite bool_decide_eq_true_2.
  - by rewrite IH.
Qed.

Lemma basename_no_slash (p : string) :
  contains_char "/" (OsPath.basename p) = false.
Proof.
  unfold OsPath.basename.
  destruct (split_last "/" p) as [[a b]|] eqn:E.
  - by apply split_last_tail_free in E.
  - by apply split_last_none.
Qed.

Lemma basename_join (dir name : string) :
  contains_char "/" name = false →
  OsPath.basename (OsPath.join dir name) = name.
Proof.
  intros Hname. unfold OsPath.join.
  assert (Hstart : startswith_char name "/" = false).
  { destruct name as [|c r]; simpl in *; [done |].
    by apply orb_false_iff in Hname as [-> _]. }
  assert (Hself : OsPath.basename name = name).
  { unfold OsPath.basename. apply split_last_none in Hname.
    by rewrite Hname. }
  rewrite Hstart.
  destruct (bool_decide (dir = "") || endswith dir "/") eqn:Hd.
  - apply orb_true_iff in Hd as [Hd | Hd].
    + apply bool_decide_eq_true in Hd as ->. by simpl.
    + apply endswith_spec in Hd as [p' ->].
      rewrite app_assoc_s. simpl.
      unfold OsPath.basename. by rewrite split_last_app.
  - simpl. unfold OsPath.basename. by rewrite split_last_app.
Qed.

End PathFacts.

(** ** Fetcher, continued *)

Section FetcherMore.
Variable w : world.

(** X4.  [download_file] never overwrites or removes a file that is
    already in the download tree: every existing file keeps its content,
    only the target path can change, and an uncaught exception leaves
    the state as it was. *)
Theorem download_file_keeps_existing_files
    (file_url folder : string) (s : state) :
  wp (download_file w file_url folder) s
     (λ _ s',
        (∀ q c, fs s !! q = Some c → fs s' !! q = Some c) ∧
        (∀ q, q ≠ OsPath.join folder
                    (OsPath.basename (urlparse_path w file_url)) →
              fs s' !! q = fs s !! q) ∧
        hfile s' = hfile s)
     (λ _ s', s' = s).
Proof.
  unfold wp. rewrite download_file_eq. cbv zeta.
  case_bool_decide; [done |].
  destruct (makedirs_ok w folder); [| done].
  destruct (path_exists (fs s) _) eqn:Hex; [done |].
  assert (Hfree : fs s !! OsPath.join folder
                    (OsPath.basename (urlparse_path w file_url)) = None).
  { unfold path_exists in Hex. apply bool_decide_eq_false in Hex.
    by apply eq_None_not_Some. }
  destruct (requests_get_file w file_url); simpl; [done | |].
  - split; [| split; [| done]].
    + intros q c Hq. rewrite lookup_insert_ne; [done | congruence].
    + intros q Hq. by rewrite lookup_insert_ne.
  - split; [| split; [| done]].
    + intros q c Hq. rewrite lookup_insert_ne; [done | congruence].
    + intros q Hq. by rewrite lookup_insert_ne.
Qed.

(** X5.  A path returned by [download_file] is the staging folder
    joined with the file name of the URL's path; its last component is
    that file name and it is never empty, so the truth test [main]
    applies to it never discards a returned path. *)
Theorem downloaded_path_carries_remote_name
    (file_url folder : string) (s : state) :
  wp (download_file w file_url folder) s
     (λ r s',
        ∀ p, r = Some p →
             p = OsPath.join folder
                   (OsPath.basename (urlparse_path w file_url)) ∧
             OsPath.basename p = OsPath.basename (urlparse_path w file_url) ∧
             p ≠ "" ∧ truthy r = true)
     (λ _ _, True).
Proof.
  unfold wp. rewrite download_file_eq. cbv zeta.
  set (name := OsPath.basename (urlparse_path w file_url)).
  assert (Hbase : OsPath.basename (OsPath.join folder name) = name).
  { apply basename_join, basename_no_slash. }
  case_bool_decide as Hname; [done |].
  assert (Hne : OsPath.join folder name ≠ "").
  { intros Hp. rewrite Hp in Hbase. by rewrite <- Hbase in Hname. }
  assert (Htruthy : truthy (Some (OsPath.join folder name)) = true).
  { simpl. by rewrite bool_decide_eq_false_2. }
  destruct (makedirs_ok w folder); [| done].
  destruct (path_exists (fs s) _).
  - by intros p [= <-].
  - destruct (requests_get_file w file_url); simpl; try done.
    by intros p [= <-].
Qed.

(** X6.  A stream that breaks after the local file was created leaves
    the partial file behind, and [download_file] reports failure.  The
    next call for the same URL, whatever the server would now answer,
    makes no request and returns the partial file as a finished
    download. *)
Theorem broken_download_is_taken_for_complete
    (w' : world) (file_url folder written : string) (e : exn) (s : state) :
  OsPath.basename (urlparse_path w file_url) ≠ "" →
  makedirs_ok w folder = true →
  path_exists (fs s)
    (OsPath.join folder (OsPath.basename (urlparse_path w file_url)))
    = false →
  requests_get_file w file_url = StreamBroken written e →
  urlparse_path w' file_url = urlparse_path w file_url →
  makedirs_ok w' folder = true →
  ∃ s1,
    download_file w file_url folder s = Done None s1 ∧
    fs s1 !! OsPath.join folder (OsPath.basename (urlparse_path w file_url))
      = Some written ∧
    download_file w' file_url folder s1
    = Done (Some (OsPath.join folder
                    (OsPath.basename (urlparse_path w file_url))))
           (State (fs s1) (hfile s1)
                  (trace s1
                     ++ [MsgAlreadyLocal
                           (OsPath.basename (urlparse_path w file_url))])).
Proof.
  intros Hname Hmk Hfree Hreq Hpath Hmk'.
  set (path := OsPath.join folder
                 (OsPath.basename (urlparse_path w file_url))) in *.
  exists (State (<[path := written]> (fs s)) (hfile s)
                ((trace s ++ [NetGetFile file_url])
                   ++ [MsgDownloadError file_url e])).
  split; [| split].
  - rewrite download_file_eq. cbv zeta. fold path.
    by rewrite (bool_decide_eq_false_2 _ Hname), Hmk, Hfree, Hreq.
  - simpl. by rewrite lookup_insert_eq.
  - rewrite download_file_eq. cbv zeta. rewrite Hpath. fold path.
    rewrite (bool_decide_eq_false_2 _ Hname), Hmk'. simpl.
    unfold path_exists. rewrite lookup_insert_eq.
    by rewrite bool_decide_eq_true_2 by by eexists.
Qed.

End FetcherMore.

Lemma broken_download_is_taken_for_complete_witness :
  requests_get_file flaky demo_link = StreamBroken "fir" ConnectionError ∧
  ∃ s1,
    download_file flaky demo_link "downloads" Demo.fresh = Done None s1 ∧
    fs s1 !! OsPath.join "downloads"
               (OsPath.basename (urlparse_path flaky demo_link))
      = Some "fir" ∧
    download_file Demo.online demo_link "downloads" s1
    = Done (Some (OsPath.join "downloads"
                    (OsPath.basename (urlparse_path flaky demo_link))))
           (State (fs s1) (hfile s1)
                  (trace s1
                     ++ [MsgAlreadyLocal
                           (OsPath.basename (urlparse_path flaky demo_link))])).
Proof.
  split; [reflexivity |].
  apply (broken_download_is_taken_for_complete flaky Demo.online demo_link
           "downloads" "fir" ConnectionError Demo.fresh).
  - discriminate.
  - reflexivity.
  - vm_compute; reflexivity.
  - reflexivity.
  - reflexivity.
  - reflexivity.
Defined.

(** ** OrganizationPolicy, continued *)

Section OrganizationMore.
Variable w : world.
Local Opaque collision_loop.

Lemma collision_loop_more_fuel (fuel extra : nat) (files : gmap string string)
    (dir stem ext : string) (counter : nat) (p final : string) :
  collision_loop fuel files dir stem ext counter p = Some final →
  collision_loop (fuel + extra) files dir stem ext counter p = Some final.
Proof.
  Local Transparent collision_loop.
  revert counter p. induction fuel as [|fuel IH]; intros counter p; simpl.
  - destruct (path_exists files p) eqn:Hp; [discriminate |].
    intros [= <-]. by apply collision_loop_free.
  - destruct (path_exists files p); [apply IH | done].
  Local Opaque collision_loop.
Qed.

(** X7.  The collision loop of [organize_file] needs at most one round
    more than there are files: with that budget it ends on a path that
    is free, and any larger budget gives the same path. *)
Theorem collision_loop_budget_suffices (extra : nat)
    (files : gmap string string) (dir stem ext : string) (counter : nat)
    (p : string) :
  ∃ final,
    collision_loop (S (size files)) files dir stem ext counter p
    = Some final ∧
    collision_loop (S (size files) + extra) files dir stem ext counter p
    = Some final ∧
    path_exists files final = false.
Proof.
  destruct (collision_loop_terminates files dir stem ext counter p)
    as (final & Hloop & Hfree).
  exists final. split; [done |]. split; [| done].
  by apply collision_loop_more_fuel.
Qed.

(** What [organize_file] does to the download tree. *)
Lemma organize_file_move_wp (file_path base rule : string) (s : state) :
  wp (organize_file w file_path base rule) s
     (λ r s',
        match r with
        | None =>
            hfile s' = hfile s ∧
            (fs s' = fs s ∨
             ∃ q copied, fs s !! q = None ∧ fs s' = <[q := copied]> (fs s))
        | Some q =>
            fs s !! q = None ∧ is_Some (fs s !! file_path) ∧
            fs s' = <[q := default "" (fs s !! file_path)]>
                      (delete file_path (fs s)) ∧
            hfile s' = hfile s
        end)
     (λ _ s', s' = s).
Proof.
  unfold wp. rewrite organize_file_eq. cbv zeta.
  destruct (bool_decide (file_path = "") || negb (path_exists (fs s) file_path))
    eqn:Hguard; [simpl; auto |].
  apply orb_false_iff in Hguard as [_ Hex].
  apply negb_false_iff in Hex. unfold path_exists in Hex.
  apply bool_decide_eq_true in Hex.
  destruct (destination_dir w base rule file_path) as [dir|];
    [| simpl; auto].
  destruct (makedirs_ok w dir); [| done].
  destruct (collision_loop_terminates (fs s) dir
              (OsPath.splitext (OsPath.basename file_path)).1
              (OsPath.splitext (OsPath.basename file_path)).2 1
              (OsPath.join dir (OsPath.basename file_path)))
    as (final & -> & Hfree).
  unfold path_exists in Hfree. apply bool_decide_eq_false in Hfree.
  apply eq_None_not_Some in Hfree.
  destruct (move_ok w file_path final); [done |].
  destruct (move_leftover w file_path final) as [copied|]; simpl.
  - split; [done |]. right. by exists final, copied.
  - split; [done |]. by left.
Qed.

(** X8.  Organizing a staged regular file never loses a file when it
    fails: if [organize_file] returns [None] (unknown rule, or a move
    that raised), the staged file is still in place with its content,
    every other file of the tree is as before, the history file is
    unchanged, and at most one path has appeared: a copy that the failed
    move left at the free destination it was aiming at.  If it raises,
    the whole state is as before. *)
Theorem failed_organize_loses_no_file
    (file_path base rule content : string) (s : state) :
  fs s !! file_path = Some content →
  wp (organize_file w file_path base rule) s
     (λ r s',
        r = None →
        hfile s' = hfile s ∧
        fs s' !! file_path = Some content ∧
        (∀ p c, fs s !! p = Some c → fs s' !! p = Some c) ∧
        (fs s' = fs s ∨
         ∃ q copied, fs s !! q = None ∧ fs s' = <[q := copied]> (fs s)))
     (λ _ s', s' = s).
Proof.
  intros Hfile.
  eapply wp_mono; [apply organize_file_move_wp | | done].
  intros r s' H ->. destruct H as [Hhist Hfs].
  assert (Hkept : ∀ p c, fs s !! p = Some c → fs s' !! p = Some c).
  { intros p c Hp. destruct Hfs as [-> | (q & copied & Hq & ->)]; [done |].
    rewrite lookup_insert_ne; [done | congruence]. }
  split; [done |]. split; [by apply Hkept |]. by split.
Qed.

(** X9.  Organizing a staged regular file, when it succeeds, is a move
    onto a free path: the returned path held no file before and differs
    from the staged path, it now holds the staged content, the staged
    path is gone, every other file is untouched, and the number of files
    is unchanged. *)
Theorem organize_file_moves_onto_free_path
    (file_path base rule content : string) (s : state) :
  fs s !! file_path = Some content →
  wp (organize_file w file_path base rule) s
     (λ r s',
        ∀ q, r = Some q →
             fs s !! q = None ∧ q ≠ file_path ∧
             fs s' !! q = Some content ∧
             fs s' !! file_path = None ∧
             (∀ p, p ≠ q → p ≠ file_path → fs s' !! p = fs s !! p) ∧
             size (fs s') = size (fs s))
     (λ _ _, True).
Proof.
  intros Hc.
  eapply wp_mono; [apply organize_file_move_wp | | done].
  intros r s' H q ->. destruct H as (Hfree & _ & -> & _).
  assert (Hne : q ≠ file_path) by congruence.
  rewrite Hc. simpl. repeat split.
  - done.
  - done.
  - by rewrite lookup_insert_eq.
  - rewrite lookup_insert_ne by done. by rewrite lookup_delete_eq.
  - intros p Hpq Hpf.
    rewrite lookup_insert_ne by done. by rewrite lookup_delete_ne.
  - rewrite map_size_insert_None.
    + rewrite map_size_delete_Some by by eexists.
      assert (size (fs s) ≠ 0).
      { intros H0. apply map_size_empty_inv in H0.
        rewrite H0, lookup_empty in Hc. discriminate. }
      lia.
    + by rewrite lookup_delete_ne.
Qed.

(** X10.  Once a file has been organized, organizing the same staged
    path again, under any rule and in any world, finds nothing there:
    it returns [None] with the not-found warning and changes nothing. *)
Theorem organize_file_twice_finds_nothing
    (w' : world) (file_path base rule base' rule' q : string)
    (s s1 : state) :
  organize_file w file_path base rule s = Done (Some q) s1 →
  organize_file w' file_path base' rule' s1
  = Done None (State (fs s1) (hfile s1)
                     (trace s1 ++ [WarnNotFound file_path])).
Proof.
  intros Hfirst.
  pose proof (organize_file_move_wp file_path base rule s) as H.
  apply (wp_done _ _ _ _ _ _ H) in Hfirst. clear H.
  destruct Hfirst as (Hfree & [c Hc] & Hfs & _).
  assert (Hne : q ≠ file_path) by congruence.
  rewrite organize_file_eq. cbv zeta.
  assert (Hgone : path_exists (fs s1) file_path = false).
  { unfold path_exists. apply bool_decide_eq_false.
    rewrite Hfs, lookup_insert_ne, lookup_delete_eq by done.
    by intros [? ?]. }
  by rewrite Hgone, orb_true_r.
Qed.

End OrganizationMore.

Example failed_move_leaves_copy_and_staged_file :
  ∃ s',
    organize_file stuck "downloads/a.txt" "downloads" "type" Demo.staged_twice
    = Done None s' ∧
    fs s' !! "downloads/a.txt" = Some "second" ∧
    fs s' !! "downloads/Txt/a.txt" = Some "first" ∧
    fs s' !! "downloads/Txt/a(1).txt" = Some "sec".
Proof. eexists. split; [vm_compute; reflexivity |]. vm_compute. auto. Qed.

Lemma failed_organize_loses_no_file_witness :
  fs Demo.staged_twice !! "downloads/a.txt" = Some "second" ∧
  wp (organize_file stuck "downloads/a.txt" "downloads" "type")
     Demo.staged_twice
     (λ r s',
        r = None →
        hfile s' = hfile Demo.staged_twice ∧
        fs s' !! "downloads/a.txt" = Some "second" ∧
        (∀ p c, fs Demo.staged_twice !! p = Some c → fs s' !! p = Some c) ∧
        (fs s' = fs Demo.staged_twice ∨
         ∃ q copied, fs Demo.staged_twice !! q = None ∧
                     fs s' = <[q := copied]> (fs Demo.staged_twice)))
     (λ _ s', s' = Demo.staged_twice).
Proof.
  assert (Hstaged : fs Demo.staged_twice !! "downloads/a.txt" = Some "second")
    by (vm_compute; reflexivity).
  split; [exact Hstaged |].
  exact (failed_organize_loses_no_file stuck "downloads/a.txt" "downloads"
           "type" "second" Demo.staged_twice Hstaged).
Defined.

Lemma organize_file_moves_onto_free_path_witness :
  fs Demo.staged_twice !! "downloads/a.txt" = Some "second" ∧
  wp (organize_file Demo.online "downloads/a.txt" "downloads" "type")
     Demo.staged_twice
     (λ r s',
        ∀ q, r = Some q →
             fs Demo.staged_twice !! q = None ∧ q ≠ "downloads/a.txt" ∧
             fs s' !! q = Some "second" ∧
             fs s' !! "downloads/a.txt" = None ∧
             (∀ p, p ≠ q → p ≠ "downloads/a.txt" →
                   fs s' !! p = fs Demo.staged_twice !! p) ∧
             size (fs s') = size (fs Demo.staged_twice))
     (λ _ _, True).
Proof.
  assert (Hstaged : fs Demo.staged_twice !! "downloads/a.txt" = Some "second")
    by (vm_compute; reflexivity).
  split; [exact Hstaged |].
  exact (organize_file_moves_onto_free_path Demo.online "downloads/a.txt"
           "downloads" "type" "second" Demo.staged_twice Hstaged).
Defined.

Lemma organize_file_twice_finds_nothing_witness :
  ∃ s1,
    organize_file Demo.online "downloads/a.txt" "downloads" "type"
                  Demo.staged_twice
    = Done (Some "downloads/Txt/a(1).txt") s1 ∧
    organize_file Demo.blocked "downloads/a.txt" "elsewhere" "date" s1
    = Done None (State (fs s1) (hfile s1)
                       (trace s1 ++ [WarnNotFound "downloads/a.txt"])).
Proof.
  eexists. split; [vm_compute; reflexivity |].
  apply (organize_file_twice_finds_nothing Demo.online Demo.blocked
           "downloads/a.txt" "downloads" "type" "elsewhere" "date"
           "downloads/Txt/a(1).txt" Demo.staged_twice).
  vm_compute; reflexivity.
Defined.

(** ** HistoryStore, continued *)

Section HistoryRoundTrip.

Lemma set_of_items_keys (keys : list pykey) :
  set_of_items (key_json <$> keys) = inr (list_to_set keys).
Proof.
  induction keys as [|k keys IH]; csimpl; [done |].
  rewrite IH. by destruct k.
Qed.

Lemma load_json_array (files : gmap string string) (tr : list event)
    (items : list json) :
  load_download_history (State files (HistJson (JArr items)) tr)
  = match set_of_items items with
    | inr h =>
        Done h (State files (HistJson (JArr items)) (tr ++ [MsgHistoryLoaded]))
    | inl e =>
        Done ∅ (State files (HistJson (JArr items))
                      ((tr ++ [MsgHistoryLoaded])
                         ++ [WarnHistoryLoadError e]))
    end.
Proof.
  unfold load_download_history, bind, get_hfile, try_except, lift_exn. simpl.
  destruct (set_of_items items) as [e | h] eqn:E; simpl; [| done].
  assert (e = TypeError) as ->; [| done].
  clear -E. revert e E. induction items as [|v rest IH]; intros e; simpl.
  - discriminate.
  - destruct (hashable v) as [e' | k] eqn:Hv.
    + intros [= <-]. destruct v; simpl in Hv; congruence.
    + destruct (set_of_items rest) as [e'' | h']; [| discriminate].
      intros [= <-]. by apply IH.
Qed.

(** X11.  What [save_download_history] writes, [load_download_history]
    reads back: after a successful save, loading returns the very set
    that was saved, without any warning. *)
Theorem saved_history_loads_back
    (w : world) (h : gset pykey) (s : state) :
  history_write_ok w = true →
  bind (save_download_history w h) (λ _, load_download_history) s
  = Done h (State (fs s)
                  (HistJson (JArr (key_json <$> elements h)))
                  ((trace s ++ [MsgHistorySaved]) ++ [MsgHistoryLoaded])).
Proof.
  intros Hok.
  unfold bind at 1, save_download_history. rewrite Hok.
  change ((put_hfile (HistJson (JArr (key_json <$> elements h))) ;;;
           emit MsgHistorySaved) s)
    with (Done tt (State (fs s) (HistJson (JArr (key_json <$> elements h)))
                         (trace s ++ [MsgHistorySaved]))).
  cbv beta iota. rewrite load_json_array.
  by rewrite set_of_items_keys, list_to_set_elements_L.
Qed.

End HistoryRoundTrip.

Lemma saved_history_loads_back_witness :
  history_write_ok Demo.online = true ∧
  bind (save_download_history Demo.online {[KStr demo_link]})
       (λ _, load_download_history) Demo.fresh
  = Done {[KStr demo_link]}
         (State (fs Demo.fresh)
                (HistJson (JArr (key_json <$> elements
                                   ({[KStr demo_link]} : gset pykey))))
                ((trace Demo.fresh ++ [MsgHistorySaved])
                   ++ [MsgHistoryLoaded])).
Proof.
  split; [reflexivity |].
  exact (saved_history_loads_back Demo.online {[KStr demo_link]} Demo.fresh
           eq_refl).
Defined.

(** ** Requests of a run *)

Section Requests.
Variable w : world.

Lemma file_requests_snoc (tr : list event) (e : event) :
  file_requests (tr ++ [e])
  = file_requests tr ++ match e with NetGetFile u => [u] | _ => [] end.
Proof. unfold file_requests. rewrite omap_app. by destruct e. Qed.

Lemma page_requests_snoc (tr : list event) (e : event) :
  page_requests (tr ++ [e])
  = page_requests tr ++ match e with NetGetPage u => [u] | _ => [] end.
Proof. unfold page_requests. rewrite omap_app. by destruct e. Qed.

Ltac requests :=
  simpl; rewrite ?file_requests_snoc, ?page_requests_snoc; simpl;
  rewrite ?app_nil_r.

Lemma download_file_requests (file_url folder : string) (s : state) :
  wp (download_file w file_url folder) s
     (λ _ s',
        page_requests (trace s') = page_requests (trace s) ∧
        (file_requests (trace s') = file_requests (trace s) ∨
         file_requests (trace s') = file_requests (trace s) ++ [file_url]))
     (λ _ s', s' = s).
Proof.
  unfold wp. rewrite download_file_eq. cbv zeta.
  case_bool_decide; [requests; auto |].
  destruct (makedirs_ok w folder); [| done].
  destruct (path_exists (fs s) _); [requests; auto |].
  destruct (requests_get_file w file_url); requests; auto.
Qed.

Lemma organize_file_requests (file_path base rule : string) (s : state) :
  wp (organize_file w file_path base rule) s
     (λ _ s',
        page_requests (trace s') = page_requests (trace s) ∧
        file_requests (trace s') = file_requests (trace s))
     (λ _ s', s' = s).
Proof.
  unfold wp. rewrite organize_file_eq. cbv zeta.
  destruct (_ || _); [requests; auto |].
  destruct (destination_dir w base rule file_path) as [dir|];
    [| requests; auto].
  destruct (makedirs_ok w dir); [| done].
  destruct (collision_loop_terminates (fs s) dir
              (OsPath.splitext (OsPath.basename file_path)).1
              (OsPath.splitext (OsPath.basename file_path)).2 1
              (OsPath.join dir (OsPath.basename file_path)))
    as (final & -> & _).
  destruct (move_ok w file_path final); [requests; auto |].
  destruct (move_leftover w file_path final); requests; auto.
Qed.

Lemma process_link_requests (force : bool) (cfg : config) (link : string)
    (h : gset pykey) (s : state) :
  wp (process_link w force cfg link h) s
     (λ h' s',
        link_requests force link h s s' ∧
        (h' = h ∨ h' = {[KStr link]} ∪ h))
     (λ _ s', link_requests force link h s s').
Proof.
  unfold process_link, link_requests.
  destruct (bool_decide (KStr link ∈ h) && negb force) eqn:Hguard.
  { unfold wp. requests. auto. }
  assert (Hnew : force = false → KStr link ∉ h).
  { intros ->. rewrite andb_true_r in Hguard.
    by apply bool_decide_eq_false in Hguard. }
  apply wp_bind.
  eapply wp_mono; [apply download_file_requests | | ].
  - intros r s1 [Hp1 Hf1]. cbv beta. apply wp_bind.
    destruct (truthy r).
    + apply wp_bind. eapply wp_mono; [apply organize_file_requests | | ].
      * intros r2 s2 [Hp2 Hf2]. cbv beta.
        destruct (truthy r2); unfold wp; requests;
          rewrite Hp2, Hp1, Hf2; (split; [split; [done |] | auto]);
          destruct Hf1 as [-> | ->]; auto.
      * intros e s2 ->. split; [done |].
        destruct Hf1 as [-> | ->]; auto.
    + unfold wp. requests. rewrite Hp1.
      split; [split; [done |] | auto].
      destruct Hf1 as [-> | ->]; auto.
  - intros e s1 ->. auto.
Qed.

Lemma new_file_requests_weaken (from from' : string → Prop) (force : bool)
    (h h1 : gset pykey) (s s1 s2 : state) :
  (∀ u, from u → from' u) → h ⊆ h1 →
  (file_requests (trace s1) = file_requests (trace s) ∨
   ∃ u, file_requests (trace s1) = file_requests (trace s) ++ [u] ∧
        from' u ∧ (force = false → KStr u ∉ h)) →
  new_file_requests from force h1 s1 s2 →
  new_file_requests from' force h s s2.
Proof.
  intros Hfrom Hsub Hfirst (reqs & Hreqs & Hall).
  destruct Hfirst as [Hsame | (u & Hone & Hu & Hnew)].
  - exists reqs. rewrite Hreqs, Hsame. split; [done |].
    intros v Hv. destruct (Hall v Hv) as [? Hv']. split; [auto |].
    intros Hf Hin. apply (Hv' Hf). revert Hin. apply Hsub.
  - exists (u :: reqs). rewrite Hreqs, Hone, <- app_assoc. split; [done |].
    intros v [-> | Hv]%elem_of_cons; [done |].
    destruct (Hall v Hv) as [? Hv']. split; [auto |].
    intros Hf Hin. apply (Hv' Hf). revert Hin. apply Hsub.
Qed.

Lemma new_file_requests_refl (from : string → Prop) (force : bool)
    (h : gset pykey) (s s' : state) :
  file_requests (trace s') = file_requests (trace s) →
  new_file_requests from force h s s'.
Proof.
  intros Hsame. exists []. rewrite app_nil_r. split; [done |].
  intros u Hu. by apply elem_of_nil in Hu.
Qed.

Lemma process_links_requests (force : bool) (cfg : config)
    (links : list string) (h : gset pykey) (s : state) :
  wp (process_links w force cfg links h) s
     (λ h' s',
        page_requests (trace s') = page_requests (trace s) ∧
        new_file_requests (λ u, u ∈ links) force h s s' ∧
        history_grown_by (λ u, u ∈ links) h h')
     (λ _ s',
        page_requests (trace s') = page_requests (trace s) ∧
        new_file_requests (λ u, u ∈ links) force h s s').
Proof.
  revert h s. induction links as [|link rest IH]; intros h s; simpl.
  - apply wp_ret. split; [done |]. split.
    + by apply new_file_requests_refl.
    + split; [done | auto].
  - apply wp_bind.
    eapply wp_mono; [apply process_link_requests | | ].
    + intros h1 s1 [[Hp1 Hf1] Hh1]. cbv beta.
      assert (Hsub : h ⊆ h1).
      { destruct Hh1 as [-> | ->]; [done | apply union_subseteq_r]. }
      assert (Hfirst :
        file_requests (trace s1) = file_requests (trace s) ∨
        ∃ u, file_requests (trace s1) = file_requests (trace s) ++ [u] ∧
             u ∈ link :: rest ∧ (force = false → KStr u ∉ h)).
      { destruct Hf1 as [? | [? ?]]; [by left | right].
        exists link. split; [done |]. split; [| done].
        apply elem_of_cons. by left. }
      eapply wp_mono; [apply IH | | ].
      * intros h2 s2 (Hp2 & Hf2 & Hsub2 & Hnew2).
        split; [congruence |]. split.
        -- eapply new_file_requests_weaken; [| done | done | done].
           intros u Hu. apply elem_of_cons. by right.
        -- split; [by etrans |].
           intros k Hk. destruct (Hnew2 k Hk) as [Hk1 | (l & -> & Hl)].
           ++ destruct Hh1 as [-> | ->]; [by left |].
              apply elem_of_union in Hk1 as [->%elem_of_singleton | ?];
                [| by left].
              right. exists link. split; [done |].
              apply elem_of_cons. by left.
           ++ right. exists l. split; [done |].
              apply elem_of_cons. by right.
      * intros e s2 (Hp2 & Hf2). split; [congruence |].
        eapply new_file_requests_weaken; [| done | done | done].
        intros u Hu. apply elem_of_cons. by right.
    + intros e s1 [Hp1 Hf1]. split; [done |].
      destruct Hf1 as [Hsame | [Hone Hnew]].
      * by apply new_file_requests_refl.
      * exists [link]. split; [done |].
        intros u ->%list_elem_of_singleton. split; [| done].
        apply elem_of_cons. by left.
Qed.

End Requests.

Section RunRequests.
Variable w : world.

Lemma new_file_requests_transfer (from from' : string → Prop) (force : bool)
    (h : gset pykey) (s s' t t' : state) :
  new_file_requests from force h t t' →
  file_requests (trace s) = file_requests (trace t) →
  file_requests (trace s') = file_requests (trace t') →
  (∀ u, from u → from' u) →
  new_file_requests from' force h s s'.
Proof.
  intros (reqs & Hreqs & Hall) Hs Hs' Hfrom.
  exists reqs. rewrite Hs, Hs'. split; [done |].
  intros u Hu. destruct (Hall u Hu). auto.
Qed.

Lemma new_file_requests_trans (from : string → Prop) (force : bool)
    (h h1 : gset pykey) (s s1 s2 : state) :
  h ⊆ h1 →
  new_file_requests from force h s s1 →
  new_file_requests from force h1 s1 s2 →
  new_file_requests from force h s s2.
Proof.
  intros Hsub (r1 & Hr1 & Hall1) (r2 & Hr2 & Hall2).
  exists (r1 ++ r2). rewrite Hr2, Hr1, <- app_assoc. split; [done |].
  intros u [Hu | Hu]%elem_of_app; [auto |].
  destruct (Hall2 u Hu) as [? Hnot]. split; [done |].
  intros Hf Hin. apply (Hnot Hf). revert Hin. apply Hsub.
Qed.

Lemma history_grown_by_trans (from : string → Prop) (h h1 h2 : gset pykey) :
  history_grown_by from h h1 → history_grown_by from h1 h2 →
  history_grown_by from h h2.
Proof.
  intros [Hs1 Hn1] [Hs2 Hn2]. split; [by etrans |].
  intros k Hk. destruct (Hn2 k Hk) as [Hk1 | ?]; [auto | by right].
Qed.

Lemma history_grown_by_mono (from from' : string → Prop) (h h' : gset pykey) :
  (∀ u, from u → from' u) →
  history_grown_by from h h' → history_grown_by from' h h'.
Proof.
  intros Hfrom [Hs Hn]. split; [done |].
  intros k Hk. destruct (Hn k Hk) as [? | (l & -> & ?)]; [by left |].
  right. exists l. auto.
Qed.

Lemma found_on_pages_here (cfg : config) (url : string) (rest : list string)
    (u : string) :
  found_on_pages w cfg [url] u → found_on_pages w cfg (url :: rest) u.
Proof.
  intros (url' & text & ->%list_elem_of_singleton & ?).
  exists url, text. split; [| done]. apply elem_of_cons. by left.
Qed.

Lemma found_on_pages_later (cfg : config) (url : string) (rest : list string)
    (u : string) :
  found_on_pages w cfg rest u → found_on_pages w cfg (url :: rest) u.
Proof.
  intros (url' & text & Hin & ?).
  exists url', text. split; [| done]. apply elem_of_cons. by right.
Qed.

(** [get_page_content], case by case. *)
Lemma get_page_content_eq (url : string) (s : state) :
  get_page_content w url s =
  match requests_get_page w url with
  | PageText text =>
      Done (Some text) (State (fs s) (hfile s) (trace s ++ [NetGetPage url]))
  | PageError e =>
      Done None (State (fs s) (hfile s)
                       ((trace s ++ [NetGetPage url])
                          ++ [MsgPageError url e]))
  end.
Proof.
  unfold get_page_content, bind, emit. simpl.
  by destruct (requests_get_page w url).
Qed.

Ltac requests :=
  simpl; rewrite ?page_requests_snoc, ?file_requests_snoc; simpl;
  rewrite ?app_nil_r.

Lemma process_url_requests (force : bool) (cfg : config) (url : string)
    (h : gset pykey) (s : state) :
  wp (process_url w force cfg url h) s
     (λ h' s',
        page_requests (trace s') = page_requests (trace s) ++ [url] ∧
        new_file_requests (found_on_pages w cfg [url]) force h s s' ∧
        history_grown_by (found_on_pages w cfg [url]) h h')
     (λ _ s',
        page_requests (trace s') = page_requests (trace s) ++ [url] ∧
        new_file_requests (found_on_pages w cfg [url]) force h s s').
Proof.
  assert (Hquiet : ∀ evs,
    file_requests (trace s ++ evs) = file_requests (trace s) →
    page_requests (trace s ++ evs) = page_requests (trace s) ++ [url] →
    page_requests (trace s ++ evs) = page_requests (trace s) ++ [url] ∧
    new_file_requests (found_on_pages w cfg [url]) force h s
      (State (fs s) (hfile s) (trace s ++ evs)) ∧
    history_grown_by (found_on_pages w cfg [url]) h h).
  { intros evs Hf Hp. split; [done |]. split.
    - by apply new_file_requests_refl.
    - split; [done | auto]. }
  unfold process_url. apply wp_bind.
  unfold wp at 1. rewrite get_page_content_eq.
  destruct (requests_get_page w url) as [text | e] eqn:Hpage.
  - apply wp_bind. simpl truthy.
    case_bool_decide as Htext; simpl negb.
    + unfold wp. simpl. rewrite <- !app_assoc. simpl.
      apply Hquiet; unfold file_requests, page_requests;
        rewrite omap_app; simpl; by rewrite ?app_nil_r.
    + simpl default.
      assert (Hfound : ∀ u,
        u ∈ find_download_links w text url (allowed_extensions cfg) →
        found_on_pages w cfg [url] u).
      { intros u Hu. exists url, text. split; [| done].
        by apply list_elem_of_singleton. }
      destruct (find_download_links w text url (allowed_extensions cfg))
        as [|l ls] eqn:Hlinks.
      * unfold wp. simpl. rewrite <- !app_assoc. simpl.
        apply Hquiet; unfold file_requests, page_requests;
          rewrite omap_app; simpl; by rewrite ?app_nil_r.
      * eapply wp_mono; [apply process_links_requests | | ].
        -- intros h2 s2 (Hp2 & Hf2 & Hh2). unfold wp. requests.
           rewrite Hp2. requests.
           split; [done |]. split.
           ++ eapply new_file_requests_transfer;
                [exact Hf2 | | | exact Hfound]; by requests.
           ++ eapply history_grown_by_mono; [exact Hfound | exact Hh2].
        -- intros e s2 (Hp2 & Hf2). rewrite Hp2. requests.
           split; [done |].
           eapply new_file_requests_transfer;
             [exact Hf2 | | | exact Hfound]; by requests.
  - unfold wp. simpl. rewrite <- !app_assoc. simpl.
    apply Hquiet; unfold file_requests, page_requests;
      rewrite omap_app; simpl; by rewrite ?app_nil_r.
Qed.

Lemma process_urls_requests (force : bool) (cfg : config)
    (urls : list string) (h : gset pykey) (s : state) :
  wp (process_urls w force cfg urls h) s
     (λ h' s',
        page_requests (trace s') = page_requests (trace s) ++ urls ∧
        new_file_requests (found_on_pages w cfg urls) force h s s' ∧
        history_grown_by (found_on_pages w cfg urls) h h')
     (λ _ s',
        (∃ visited, visited `prefix_of` urls ∧
           page_requests (trace s') = page_requests (trace s) ++ visited) ∧
        new_file_requests (found_on_pages w cfg urls) force h s s').
Proof.
  revert h s. induction urls as [|url rest IH]; intros h s; simpl.
  - apply wp_ret. rewrite app_nil_r. split; [done |]. split.
    + by apply new_file_requests_refl.
    + split; [done | auto].
  - apply wp_bind.
    eapply wp_mono; [apply process_url_requests | | ].
    + intros h1 s1 (Hp1 & Hf1 & Hh1). cbv beta.
      apply (new_file_requests_transfer _ (found_on_pages w cfg (url :: rest))
               _ _ s s1) in Hf1;
        [| done | done | apply found_on_pages_here].
      apply (history_grown_by_mono _ (found_on_pages w cfg (url :: rest)))
        in Hh1; [| apply found_on_pages_here].
      eapply wp_mono; [apply IH | | ].
      * intros h2 s2 (Hp2 & Hf2 & Hh2).
        rewrite Hp2, Hp1, <- app_assoc. split; [done |]. split.
        -- eapply new_file_requests_trans; [apply Hh1 | exact Hf1 |].
           eapply new_file_requests_transfer;
             [exact Hf2 | done | done | apply found_on_pages_later].
        -- eapply history_grown_by_trans; [exact Hh1 |].
           eapply history_grown_by_mono; [apply found_on_pages_later | done].
      * intros e s2 ((visited & Hpre & Hp2) & Hf2). split.
        -- exists (url :: visited). split; [by apply prefix_cons |].
           by rewrite Hp2, Hp1, <- app_assoc.
        -- eapply new_file_requests_trans; [apply Hh1 | exact Hf1 |].
           eapply new_file_requests_transfer;
             [exact Hf2 | done | done | apply found_on_pages_later].
    + intros e s1 (Hp1 & Hf1). split.
      * exists [url]. split; [| done].
        apply prefix_cons, prefix_nil.
      * eapply new_file_requests_transfer;
          [exact Hf1 | done | done | apply found_on_pages_here].
Qed.

End RunRequests.

(** ** Whole runs *)

Section WholeRun.
Variable w : world.

Ltac requests :=
  simpl; rewrite ?page_requests_snoc, ?file_requests_snoc; simpl;
  rewrite ?app_nil_r.

Lemma load_download_history_quiet (s : state) :
  wp load_download_history s
     (λ _ s',
        fs s' = fs s ∧ hfile s' = hfile s ∧
        page_requests (trace s') = page_requests (trace s) ∧
        file_requests (trace s') = file_requests (trace s))
     (λ _ _, False).
Proof.
  destruct s as [files hf tr].
  unfold wp, load_download_history, bind, get_hfile, try_except.
  destruct hf as [| | |v]; [done | by requests | by requests |].
  unfold lift_exn. simpl.
  destruct (py_set v) as [e | h]; simpl; [| by requests].
  destruct e; by requests.
Qed.

Lemma persist_history_quiet (initial : nat) (h : gset pykey) (s : state) :
  ∃ s', persist_history w initial h s = Done tt s' ∧
        fs s' = fs s ∧
        page_requests (trace s') = page_requests (trace s) ∧
        file_requests (trace s') = file_requests (trace s).
Proof.
  rewrite persist_history_eq.
  destruct (Nat.ltb initial (size h)); [| eexists; split; [done |]; by requests].
  destruct (history_write_ok w); eexists; (split; [done |]); by requests.
Qed.

(** The requests and the history of a whole run. *)
Lemma main_requests (force : bool) (cfg : config) (s : state) :
  wp (main w force cfg) s
     (λ r s',
        run_file_requests w force cfg s s' ∧
        match r with
        | None =>
            page_requests (trace s') = page_requests (trace s) ∧
            file_requests (trace s') = file_requests (trace s) ∧
            fs s' = fs s ∧ hfile s' = hfile s
        | Some h =>
            page_requests (trace s')
              = page_requests (trace s) ++ target_urls cfg ∧
            ∃ h0 s0,
              load_download_history s = Done h0 s0 ∧
              history_grown_by (found_on_pages w cfg (target_urls cfg)) h0 h
        end)
     (λ _ s',
        run_file_requests w force cfg s s' ∧
        ∃ visited,
          visited `prefix_of` target_urls cfg ∧
          page_requests (trace s') = page_requests (trace s) ++ visited).
Proof.
  assert (Hnone : ∀ s', file_requests (trace s') = file_requests (trace s) →
                        run_file_requests w force cfg s s').
  { intros s' Hs'. exists []. rewrite app_nil_r. split; [done |].
    intros u Hu. by apply elem_of_nil in Hu. }
  unfold main.
  destruct (target_urls cfg) as [|u us] eqn:Hurls.
  { unfold wp. requests. split; [by apply Hnone; requests | done]. }
  destruct (allowed_extensions cfg) as [|x xs] eqn:Hexts.
  { unfold wp. requests. split; [by apply Hnone; requests | done]. }
  apply wp_bind. unfold makedirs.
  destruct (makedirs_ok w (download_base_folder cfg)).
  2:{ split; [by apply Hnone |]. exists []. rewrite app_nil_r.
      split; [apply prefix_nil | done]. }
  apply wp_ret. cbv beta. apply wp_bind.
  pose proof (load_download_history_quiet s) as Hload.
  unfold wp at 1. unfold wp in Hload.
  destruct (load_download_history s) as [h0 s0 | e s0 |] eqn:Hl; try done.
  destruct Hload as (Hfs0 & Hhf0 & Hp0 & Hf0).
  apply wp_bind.
  eapply wp_mono; [apply process_urls_requests | | ].
  - intros h s1 (Hp1 & (reqs & Hreqs & Hall) & Hh1). cbv beta.
    apply wp_bind.
    destruct (persist_history_quiet (size h0) h s1)
      as (s2 & Hpersist & _ & Hp2 & Hf2).
    unfold wp at 1. rewrite Hpersist. apply wp_ret. split.
    + exists reqs. rewrite Hf2, Hreqs, Hf0. split; [done |].
      intros v Hv. destruct (Hall v Hv) as [Hfound Hnew].
      rewrite Hurls. split; [done |].
      intros Hforce h0' s0' Hl'. rewrite Hl in Hl'. injection Hl' as <- <-.
      auto.
    + rewrite Hp2, Hp1, Hp0. split; [done |].
      by exists h0, s0.
  - intros e s1 ((visited & Hpre & Hp1) & (reqs & Hreqs & Hall)). split.
    + exists reqs. rewrite Hreqs, Hf0. split; [done |].
      intros v Hv. destruct (Hall v Hv) as [Hfound Hnew].
      rewrite Hurls. split; [done |].
      intros Hforce h0' s0' Hl'. rewrite Hl in Hl'. injection Hl' as <- <-.
      auto.
    + exists visited. rewrite Hp1, Hp0. done.
Qed.

(** X12.  A run that reaches its end requests the target pages in the
    configured order, each exactly once, whether or not a page could be
    fetched; a run cut short by an uncaught exception has requested a
    prefix of them. *)
Theorem pages_requested_in_configured_order
    (force : bool) (cfg : config) (s : state) :
  wp (main w force cfg) s
     (λ r s',
        ∀ h, r = Some h →
             page_requests (trace s')
             = page_requests (trace s) ++ target_urls cfg)
     (λ _ s',
        ∃ visited,
          visited `prefix_of` target_urls cfg ∧
          page_requests (trace s') = page_requests (trace s) ++ visited).
Proof.
  eapply wp_mono; [apply main_requests | | ].
  - intros r s' [_ H] h ->. by destruct H.
  - intros e s' [_ H]. exact H.
Qed.

(** X13.  Every file a run requests is a link extracted from a target
    page that was served with a non-empty body; without the force flag,
    none of the requested links is in the history loaded at the start. *)
Theorem files_requested_only_for_found_links_not_in_history
    (force : bool) (cfg : config) (s : state) :
  wp (main w force cfg) s
     (λ _ s', run_file_requests w force cfg s s')
     (λ _ s', run_file_requests w force cfg s s').
Proof.
  eapply wp_mono; [apply main_requests | | ].
  - intros r s' [H _]. exact H.
  - intros e s' [H _]. exact H.
Qed.

(** X14.  The history at the end of a run holds everything that was
    loaded at the start, and everything else in it is a link extracted
    from a served target page: a run never forgets an entry and never
    records a URL it did not find. *)
Theorem final_history_is_loaded_plus_found_links
    (force : bool) (cfg : config) (s : state) :
  wp (main w force cfg) s
     (λ r s',
        ∀ h, r = Some h →
             ∃ h0 s0,
               load_download_history s = Done h0 s0 ∧
               h0 ⊆ h ∧
               ∀ k, k ∈ h →
                    k ∈ h0 ∨
                    ∃ link, k = KStr link ∧
                            found_on_pages w cfg (target_urls cfg) link)
     (λ _ _, True).
Proof.
  eapply wp_mono; [apply main_requests | | done].
  intros r s' [_ H] h ->. destruct H as (_ & h0 & s0 & Hload & Hsub & Hnew).
  by exists h0, s0.
Qed.

End WholeRun.

(** ** Runs that have nothing to do *)

Section QuietRuns.
Variable w : world.

Lemma file_requests_skips (links : list string) :
  file_requests (MsgSkipInHistory <$> links) = [].
Proof. induction links as [|l ls IH]; [done | exact IH]. Qed.

Lemma file_requests_app (a b : list event) :
  file_requests (a ++ b) = file_requests a ++ file_requests b.
Proof. apply omap_app. Qed.

Lemma process_links_all_in_history (cfg : config) (links : list string)
    (h : gset pykey) (s : state) :
  (∀ link, link ∈ links → KStr link ∈ h) →
  process_links w false cfg links h s
  = Done h (State (fs s) (hfile s)
                  (trace s ++ (MsgSkipInHistory <$> links))).
Proof.
  revert s. induction links as [|link rest IH]; intros s Hall.
  - simpl. rewrite app_nil_r. by destruct s.
  - assert (Hin : KStr link ∈ h) by (apply Hall, elem_of_cons; by left).
    simpl. unfold bind at 1, process_link.
    rewrite (bool_decide_eq_true_2 _ Hin). simpl.
    rewrite IH.
    + simpl. by rewrite <- app_assoc.
    + intros l Hl. apply Hall, elem_of_cons. by right.
Qed.

Lemma process_url_all_in_history (cfg : config) (url : string)
    (h : gset pykey) (s : state) :
  (∀ u, found_on_pages w cfg [url] u → KStr u ∈ h) →
  ∃ evs,
    process_url w false cfg url h s
    = Done h (State (fs s) (hfile s) (trace s ++ evs)) ∧
    file_requests evs = [].
Proof.
  intros Hall. unfold process_url. unfold bind at 1.
  rewrite get_page_content_eq.
  destruct (requests_get_page w url) as [text | e] eqn:Hpage.
  - simpl truthy. case_bool_decide as Htext; simpl negb.
    + exists [NetGetPage url; MsgPageUnavailable url; Sleep].
      split; [| done]. unfold bind, emit, ret. simpl.
      by rewrite <- !app_assoc.
    + simpl default.
      destruct (find_download_links w text url (allowed_extensions cfg))
        as [|l ls] eqn:Hlinks.
      * exists [NetGetPage url; MsgNoLinks url; Sleep].
        split; [| done]. unfold bind, emit, ret. simpl.
        by rewrite <- !app_assoc.
      * exists ([NetGetPage url] ++ (MsgSkipInHistory <$> l :: ls) ++ [Sleep]).
        split.
        -- unfold bind at 1. rewrite process_links_all_in_history.
           ++ unfold bind, emit, ret. simpl. by rewrite <- !app_assoc.
           ++ intros link Hlink. apply Hall. exists url, text.
              split; [by apply list_elem_of_singleton |].
              by rewrite Hlinks.
        -- rewrite !file_requests_app, file_requests_skips. done.
  - exists [NetGetPage url; MsgPageError url e; MsgPageUnavailable url; Sleep].
    split; [| done]. unfold bind, emit, ret. simpl.
    by rewrite <- !app_assoc.
Qed.

Lemma process_urls_all_in_history (cfg : config) (urls : list string)
    (h : gset pykey) (s : state) :
  (∀ u, found_on_pages w cfg urls u → KStr u ∈ h) →
  ∃ evs,
    process_urls w false cfg urls h s
    = Done h (State (fs s) (hfile s) (trace s ++ evs)) ∧
    file_requests evs = [].
Proof.
  revert s. induction urls as [|url rest IH]; intros s Hall.
  - exists []. simpl. rewrite app_nil_r. by destruct s.
  - destruct (process_url_all_in_history cfg url h s) as (evs1 & Hrun1 & Hq1).
    { intros u Hu. by apply Hall, found_on_pages_here. }
    destruct (IH (State (fs s) (hfile s) (trace s ++ evs1)))
      as (evs2 & Hrun2 & Hq2).
    { intros u Hu. by apply Hall, found_on_pages_later. }
    exists (evs1 ++ evs2). split.
    + simpl. unfold bind at 1. rewrite Hrun1, Hrun2. simpl.
      by rewrite <- app_assoc.
    + by rewrite file_requests_app, Hq1, Hq2.
Qed.

(** X15.  A run without the force flag over pages whose links are all in
    the loaded history downloads nothing: it requests no file, leaves
    the download tree and the history file as they were, and ends with
    the history it loaded. *)
Theorem rerun_over_known_links_downloads_nothing
    (cfg : config) (s : state) (h0 : gset pykey) (s0 : state) :
  target_urls cfg ≠ [] → allowed_extensions cfg ≠ [] →
  makedirs_ok w (download_base_folder cfg) = true →
  load_download_history s = Done h0 s0 →
  (∀ u, found_on_pages w cfg (target_urls cfg) u → KStr u ∈ h0) →
  ∃ s',
    main w false cfg s = Done (Some h0) s' ∧
    fs s' = fs s ∧ hfile s' = hfile s ∧
    file_requests (trace s') = file_requests (trace s).
Proof.
  intros Hurls Hexts Hmk Hload Hknown.
  pose proof (load_download_history_quiet s) as Hquiet.
  apply (wp_done _ _ _ _ _ _ Hquiet) in Hload as Hs0.
  destruct Hs0 as (Hfs0 & Hhf0 & _ & Hf0).
  destruct (process_urls_all_in_history cfg (target_urls cfg) h0 s0 Hknown)
    as (evs & Hrun & Hq).
  eexists. split.
  - unfold main.
    destruct (target_urls cfg) as [|u us] eqn:Hu; [done |].
    destruct (allowed_extensions cfg) as [|x xs] eqn:Hx; [done |].
    unfold bind at 1, makedirs. rewrite Hmk. unfold ret at 1.
    unfold bind at 1. rewrite Hload.
    unfold bind at 1. rewrite Hrun.
    unfold bind at 1. rewrite persist_history_eq, Nat.ltb_irrefl.
    reflexivity.
  - simpl. rewrite !file_requests_app, Hq, Hf0. simpl.
    by rewrite !app_nil_r.
Qed.

(** X16.  With no target pages, or no allowed extensions, [main] stops
    at once: one diagnostic, no request, no directory created (so even
    a folder that cannot be created raises nothing), tree and history
    file untouched. *)
Theorem run_without_targets_or_extensions_stops_at_once
    (force : bool) (cfg : config) (s : state) :
  target_urls cfg = [] ∨ allowed_extensions cfg = [] →
  ∃ msg,
    main w force cfg s
    = Done None (State (fs s) (hfile s) (trace s ++ [msg])) ∧
    (msg = MsgNoTargetUrls ∨ msg = MsgNoAllowedExtensions).
Proof.
  intros Hempty. unfold main.
  destruct (target_urls cfg) as [|u us].
  - exists MsgNoTargetUrls. by split; [| left].
  - destruct Hempty as [? | ->]; [done |].
    exists MsgNoAllowedExtensions. by split; [| right].
Qed.

(** X17.  A target page that cannot be fetched, or comes back with an
    empty body, is skipped: one page request, no file request, history
    and download tree unchanged, and the pause before the next page
    still happens. *)
Theorem unavailable_page_is_skipped
    (force : bool) (cfg : config) (url : string) (h : gset pykey)
    (s : state) :
  (∀ text, requests_get_page w url = PageText text → text = "") →
  ∃ evs,
    process_url w force cfg url h s
    = Done h (State (fs s) (hfile s) (trace s ++ evs ++ [Sleep])) ∧
    page_requests evs = [url] ∧ file_requests evs = [].
Proof.
  intros Hempty. unfold process_url. unfold bind at 1.
  rewrite get_page_content_eq.
  destruct (requests_get_page w url) as [text | e] eqn:Hpage.
  - rewrite (Hempty text eq_refl).
    exists [NetGetPage url; MsgPageUnavailable url].
    split; [| done]. unfold bind, emit, ret. simpl.
    by rewrite <- !app_assoc.
  - exists [NetGetPage url; MsgPageError url e; MsgPageUnavailable url].
    split; [| done]. unfold bind, emit, ret. simpl.
    by rewrite <- !app_assoc.
Qed.

End QuietRuns.

Lemma rerun_over_known_links_downloads_nothing_witness :
  load_download_history (State ∅ demo_history [])
  = Done ({[KStr demo_link]} ∪ ∅) (State ∅ demo_history [MsgHistoryLoaded]) ∧
  ∃ s',
    main Demo.online false (Demo.cfg "type") (State ∅ demo_history [])
    = Done (Some ({[KStr demo_link]} ∪ ∅)) s' ∧
    fs s' = fs (State ∅ demo_history []) ∧
    hfile s' = hfile (State ∅ demo_history []) ∧
    file_requests (trace s')
    = file_requests (trace (State ∅ demo_history [])).
Proof.
  split; [reflexivity |].
  apply (rerun_over_known_links_downloads_nothing Demo.online
           (Demo.cfg "type") (State ∅ demo_history [])
           ({[KStr demo_link]} ∪ ∅)
           (State ∅ demo_history [MsgHistoryLoaded])).
  - discriminate.
  - discriminate.
  - reflexivity.
  - reflexivity.
  - intros u (url & text & Hurl & Hpage & _ & Hu).
    apply list_elem_of_singleton in Hurl as ->.
    vm_compute in Hpage. injection Hpage as <-.
    change (find_download_links Demo.online Demo.page_two
              "https://example.com/" [".txt"])
      with [demo_link] in Hu.
    apply list_elem_of_singleton in Hu as ->.
    apply elem_of_union_l, elem_of_singleton. reflexivity.
Defined.

Lemma run_without_targets_or_extensions_stops_at_once_witness :
  (target_urls no_targets = [] ∨ allowed_extensions no_targets = []) ∧
  ∃ msg,
    main read_only true no_targets Demo.staged_twice
    = Done None (State (fs Demo.staged_twice) (hfile Demo.staged_twice)
                       (trace Demo.staged_twice ++ [msg])) ∧
    (msg = MsgNoTargetUrls ∨ msg = MsgNoAllowedExtensions).
Proof.
  split; [by left |].
  apply (run_without_targets_or_extensions_stops_at_once read_only true
           no_targets Demo.staged_twice).
  by left.
Defined.

Lemma unavailable_page_is_skipped_witness :
  requests_get_page Demo.offline "https://example.com/"
  = PageError ConnectionError ∧
  ∃ evs,
    process_url Demo.offline false (Demo.cfg "type") "https://example.com/"
                ∅ Demo.fresh
    = Done ∅ (State (fs Demo.fresh) (hfile Demo.fresh)
                    (trace Demo.fresh ++ evs ++ [Sleep])) ∧
    page_requests evs = ["https://example.com/"] ∧ file_requests evs = [].
Proof.
  split; [reflexivity |].
  apply (unavailable_page_is_skipped Demo.offline false (Demo.cfg "type")
           "https://example.com/" ∅ Demo.fresh).
  intros text Hpage. discriminate Hpage.
Defined.

(** ** Configuration *)

Section Configuration.

Lemma dict_get_absent (members : list (string * json)) (key : string)
    (default : json) :
  key ∉ members.*1 → dict_get members key default = default.
Proof.
  revert default. induction members as [|[k v] rest IH]; intros d; simpl.
  - done.
  - intros Hnot. apply not_elem_of_cons in Hnot as [Hne Hrest].
    rewrite bool_decide_eq_false_2 by congruence. by apply IH.
Qed.

Lemma dict_get_last (members : list (string * json)) (key : string)
    (v default : json) :
  dict_get (members ++ [(key, v)]) key default = v.
Proof.
  revert default. induction members as [|[k u] rest IH]; intros d; simpl.
  - by rewrite bool_decide_eq_true_2.
  - case_bool_decide; apply IH.
Qed.

(** X18.  How a run starts depends on the configuration file alone: it
    goes on to read its settings exactly when the file holds a non-empty
    JSON object; it stops, with the not-loaded diagnostic, when the file
    is missing, unreadable, not JSON, or holds a false value ([null],
    [false], [0], an empty string, array or object); and a true value
    that is not an object passes that test and then fails on
    [config.get].  [load_config] reports success whenever the file is
    valid JSON, also when the run stops right after. *)
Theorem startup_by_configuration_file (f : config_file) :
  ((∃ msgs st, main_startup f = StartReady msgs st) ↔
   ∃ member members, f = ConfigJson (JObj (member :: members))) ∧
  ((∃ msgs, main_startup f = StartStopped msgs) ↔
   ∀ v, f = ConfigJson v → py_not v = true) ∧
  ((∃ msgs e, main_startup f = StartCrashed msgs e) ↔
   ∃ v, f = ConfigJson v ∧ py_not v = false ∧ ∀ members, v ≠ JObj members) ∧
  (MsgConfigLoaded ∈ (load_config f).1 ↔ ∃ v, f = ConfigJson v).
Proof.
  assert (Hloaded : ∀ b : config_msg, b ≠ MsgConfigLoaded →
            MsgConfigLoaded ∈ [MsgConfigLoading; b] → False).
  { intros b Hb Hin. apply elem_of_cons in Hin as [? | Hin]; [done |].
    apply list_elem_of_singleton in Hin. by apply Hb. }
  assert (Hyes : MsgConfigLoaded ∈ [MsgConfigLoading; MsgConfigLoaded]).
  { apply elem_of_cons. right. by apply list_elem_of_singleton. }
  destruct f as [| | |[| b | n | str | [|i items] | [|m members]]];
    unfold main_startup; simpl;
    try destruct b; try destruct str;
    try (destruct (decide (n = 0%Z)) as [-> | Hn];
         [rewrite bool_decide_eq_true_2 by done
         | rewrite bool_decide_eq_false_2 by done]);
    simpl; (split; [| split; [| split]]); split;
    try (intros _; first [by eexists _, _ | by eexists | exact Hyes]);
    try (intros (? & ? & ?); discriminate);
    try (intros (? & ?); discriminate);
    try (intros ? ? [= <-]; reflexivity);
    try (intros ?; exfalso; eapply Hloaded; [| eassumption]; done);
    try (intros (v & [= <-] & Hv & Hobj); simpl in Hv;
         first [discriminate | exfalso; by eapply Hobj]);
    try (intros Hall; specialize (Hall _ eq_refl); simpl in Hall;
         rewrite ?bool_decide_eq_false_2 in Hall by done; discriminate);
    try (intros _; eexists; split; [done |]; split;
         [simpl; by rewrite ?bool_decide_eq_false_2 by done | done]).
Qed.

Local Opaque dict_get.

Lemma dict_get_setting (members : list (string * json)) (key : string)
    (default : json) :
  setting_of members key default (dict_get members key default).
Proof.
  split.
  - apply dict_get_absent.
  - intros before v ->. apply dict_get_last.
Qed.

(** X19.  A non-empty configuration object always yields the six
    settings, each read with its own default: an absent key gives [[]]
    for the target pages and for the extensions, ["downloads"], ["date"],
    [2] and ["downloaded_files_history.json"] for the others, and a key
    given as the last member of the object gives that member's value. *)
Theorem settings_fall_back_to_defaults
    (member : string * json) (members : list (string * json)) :
  ∃ msgs st,
    main_startup (ConfigJson (JObj (member :: members)))
    = StartReady msgs st ∧
    setting_of (member :: members) "target_urls" (JArr []) (TARGET_URLS st) ∧
    setting_of (member :: members) "download_base_folder" (JStr "downloads")
               (DOWNLOAD_BASE_FOLDER st) ∧
    setting_of (member :: members) "organization_rule" (JStr "date")
               (ORGANIZATION_RULE st) ∧
    setting_of (member :: members) "allowed_extensions" (JArr [])
               (ALLOWED_EXTENSIONS st) ∧
    setting_of (member :: members) "request_delay_seconds" (JNum 2)
               (REQUEST_DELAY_SECONDS st) ∧
    setting_of (member :: members) "download_history_file"
               (JStr "downloaded_files_history.json")
               (DOWNLOAD_HISTORY_FILE st).
Proof.
  eexists _, _. split; [reflexivity |].
  cbn [TARGET_URLS DOWNLOAD_BASE_FOLDER ORGANIZATION_RULE ALLOWED_EXTENSIONS
       REQUEST_DELAY_SECONDS DOWNLOAD_HISTORY_FILE].
  repeat split; try apply dict_get_absent;
    intros before v ->; apply dict_get_last.
Qed.

(** X20.  A configuration object without a [target_urls] key, whose
    other settings have the expected types, stops the run at once: the
    default list of target pages is empty, so [main] returns after the
    no-targets diagnostic, before any request or file operation. *)
Theorem configuration_without_targets_stops_the_run
    (w : world) (force : bool) (members : list (string * json))
    (msgs : list config_msg) (st : settings) (cfg : config) (s : state) :
  "target_urls" ∉ members.*1 →
  main_startup (ConfigJson (JObj members)) = StartReady msgs st →
  settings_config st = Some cfg →
  main w force cfg s
  = Done None (State (fs s) (hfile s) (trace s ++ [MsgNoTargetUrls])).
Proof.
  intros Habsent Hstart Hcfg.
  destruct members as [|m ms]; [discriminate |].
  injection Hstart as <- <-.
  unfold settings_config in Hcfg.
  cbn [TARGET_URLS DOWNLOAD_BASE_FOLDER ORGANIZATION_RULE ALLOWED_EXTENSIONS]
    in Hcfg.
  rewrite (dict_get_absent (m :: ms) "target_urls") in Hcfg by done.
  repeat case_match; try discriminate.
  injection Hcfg as <-.
  match goal with H : strings_of [] = Some _ |- _ => injection H as <- end.
  reflexivity.
Qed.

End Configuration.

Lemma configuration_without_targets_stops_the_run_witness :
("target_urls" ∉ only_extensions.*1) ∧
  ∃ msgs st cfg,
    main_startup (ConfigJson (JObj only_extensions)) = StartReady msgs st ∧
    settings_config st = Some cfg ∧
    main Demo.online false cfg Demo.fresh
    = Done None (State (fs Demo.fresh) (hfile Demo.fresh)
                       (trace Demo.fresh ++ [MsgNoTargetUrls])).
Proof.
  assert (Habsent : "target_urls" ∉ only_extensions.*1).
  { intros Hin. apply list_elem_of_singleton in Hin. discriminate Hin. }
  split; [exact Habsent |].
  eexists _, _, _. split; [reflexivity |]. split; [reflexivity |].
  exact (configuration_without_targets_stops_the_run Demo.online false
           only_extensions _ _ _ Demo.fresh Habsent eq_refl eq_refl).
Defined.

